(** * kalilfin: the per-ticker analytics pipeline of [app.py]

    A shallow embedding of [get_stock_data] (the fetch / indicator /
    forecast / signal pipeline behind [functools.lru_cache]) and of the
    [home] request handler, with the properties of the specification
    stated over it.

    Numbers.  The program computes on IEEE doubles.  Here a number is
    either [NaN] or a finite value carried exactly as a rational, so the
    comparisons, the window logic, the NaN propagation and the decimal
    rounding are the program's, while binary rounding error is not
    modelled.  The one place where the program can produce an infinity
    (the percentage change against a previous close of zero) yields [NaN]
    here, read there as "not a finite number"; that field is never
    compared afterwards.

    Libraries.  [pandas], [ta], [yfinance] and [prophet] are outside the
    repository.  The two indicator calls are written out from the
    published behaviour of [Series.rolling(window).mean()] and of
    [ta.momentum.RSIIndicator]; the market data source and the forecast
    model are oracles of the environment, which may answer or raise. *)

From Stdlib Require Import Ascii String.
From Stdlib Require Import ZArith QArith Qround Lia Lqa Bool List.
Import ListNotations.

Local Open Scope Z_scope.

(** ** Numbers *)

Module Num.

Inductive num : Type :=
| NaN : num
| Fin : Q -> num.

Definition is_nan (x : num) : bool :=
  match x with NaN => true | Fin _ => false end.

(** Equality of values: Python's [==] agrees with it on finite numbers;
    [NaN] is related to itself here so that the relation can serve as the
    equality of results. *)
Definition num_eq (x y : num) : Prop :=
  match x, y with
  | NaN, NaN => True
  | Fin a, Fin b => (a == b)%Q
  | _, _ => False
  end.

(** Python's [<], [>] and [==] on floats: every comparison with NaN is
    false. *)
Definition ltb (x y : num) : bool :=
  match x, y with
  | Fin a, Fin b => match (a ?= b)%Q with Lt => true | _ => false end
  | _, _ => false
  end.

Definition gtb (x y : num) : bool := ltb y x.

Definition eqb (x y : num) : bool :=
  match x, y with
  | Fin a, Fin b => Qeq_bool a b
  | _, _ => false
  end.

Definition add (x y : num) : num :=
  match x, y with
  | Fin a, Fin b => Fin (a + b)%Q
  | _, _ => NaN
  end.

Definition sub (x y : num) : num :=
  match x, y with
  | Fin a, Fin b => Fin (a - b)%Q
  | _, _ => NaN
  end.

Definition mul (x y : num) : num :=
  match x, y with
  | Fin a, Fin b => Fin (a * b)%Q
  | _, _ => NaN
  end.

(** Division; a zero divisor gives a non-finite result. *)
Definition div (x y : num) : num :=
  match x, y with
  | Fin a, Fin b => if Qeq_bool b 0 then NaN else Fin (a / b)%Q
  | _, _ => NaN
  end.

(** Rounding to the nearest integer, ties to the even one: what both
    Python's [round] and numpy's [rint] do. *)
Definition round_half_even (q : Q) : Z :=
  let n := Qfloor q in
  match (q - inject_Z n ?= 1 # 2)%Q with
  | Lt => n
  | Gt => n + 1
  | Eq => if Z.even n then n else n + 1
  end.

(** [round(x, 2)]; NaN stays NaN. *)
Definition round2 (x : num) : num :=
  match x with
  | NaN => NaN
  | Fin q => Fin (round_half_even (q * 100) # 100)
  end.

(** A value that is a whole number of hundredths. *)
Definition two_decimals (q : Q) : Prop := exists k : Z, (q == k # 100)%Q.

(** What "rounded to 2 decimal places" means for a reported field: the
    field is NaN or a whole number of hundredths. *)
Definition rounded2 (x : num) : Prop :=
  match x with
  | NaN => True
  | Fin q => two_decimals q
  end.

Definition within (lo hi : Q) (x : num) : Prop :=
  match x with
  | NaN => False
  | Fin q => (lo <= q <= hi)%Q
  end.

End Num.
Import Num.

(** ** The recommendation *)

Inductive Decision : Type := Buy | Sell | Hold.

(** ["Buy" if current_price < sma_20 else "Sell" if current_price > sma_20
    else "Hold"] *)
Definition decision_of (current_price sma_20 : num) : Decision :=
  if Num.ltb current_price sma_20 then Buy
  else if Num.gtb current_price sma_20 then Sell
  else Hold.

(** ** The indicator calculator *)

(** [Series.iloc[-1]]: the last entry; an empty series has none and the
    access raises. *)
Fixpoint iloc_last {A : Type} (xs : list A) : option A :=
  match xs with
  | [] => None
  | [x] => Some x
  | _ :: tl => iloc_last tl
  end.

(** [Series.iloc[-2]] *)
Fixpoint iloc_last2 {A : Type} (xs : list A) : option A :=
  match xs with
  | [] => None
  | [_] => None
  | [x; _] => Some x
  | _ :: tl => iloc_last2 tl
  end.

(** [Series.tail(n)]: the last [n] entries, in order. *)
Definition tail {A : Type} (n : nat) (xs : list A) : list A :=
  skipn (length xs - n) xs.

(** Sum and number of the observations (the entries that are not NaN) of
    a window. *)
Fixpoint observations (w : list num) : Q * nat :=
  match w with
  | [] => (0%Q, O)
  | NaN :: tl => observations tl
  | Fin q :: tl => let '(s, n) := observations tl in ((q + s)%Q, S n)
  end.

(** The mean of one window: NaN unless it holds [min_periods]
    observations. *)
Definition window_mean (min_periods : nat) (w : list num) : num :=
  let '(s, n) := observations w in
  if (n <? min_periods)%nat then NaN
  else Fin (s / inject_Z (Z.of_nat n)).

(** [Series.rolling(window=w).mean()], with pandas' default
    [min_periods = window]: entry [i] is the mean of the entries
    [i - w + 1 .. i]. *)
Definition rolling_mean (window : nat) (xs : list num) : list num :=
  map (fun i => window_mean window (skipn (S i - window) (firstn (S i) xs)))
      (seq 0 (length xs)).

(** [Series.diff(1)] *)
Fixpoint diff_from (prev : num) (xs : list num) : list num :=
  match xs with
  | [] => []
  | x :: tl => Num.sub x prev :: diff_from x tl
  end.

Definition diff (xs : list num) : list num :=
  match xs with
  | [] => []
  | x :: tl => NaN :: diff_from x tl
  end.

(** [diff.where(diff > 0, 0.0)]: a NaN difference fails the test and is
    replaced by 0.0 like any other, so no NaN is left. *)
Definition up_direction (d : num) : Q :=
  match d with
  | Fin q => if Num.gtb d (Fin 0) then q else 0%Q
  | NaN => 0%Q
  end.

(** [-diff.where(diff < 0, 0.0)] *)
Definition down_direction (d : num) : Q :=
  match d with
  | Fin q => if Num.ltb d (Fin 0) then (- q)%Q else (- 0)%Q
  | NaN => (- 0)%Q
  end.

(** [Series.ewm(alpha=a, min_periods=m, adjust=False).mean()] on a series
    without NaN: [y0 = x0], [y_t = (1 - a) y_(t-1) + a x_t], and an entry
    is NaN until [m] observations have been seen. *)
Fixpoint ewm_from (alpha : Q) (min_periods nobs : nat) (avg : Q)
    (xs : list Q) : list num :=
  match xs with
  | [] => []
  | x :: tl =>
      let avg' := ((1 - alpha) * avg + alpha * x)%Q in
      (if (min_periods <=? S nobs)%nat then Fin avg' else NaN)
        :: ewm_from alpha min_periods (S nobs) avg' tl
  end.

Definition ewm_mean (alpha : Q) (min_periods : nat) (xs : list Q) : list num :=
  match xs with
  | [] => []
  | x :: tl =>
      (if (min_periods <=? 1)%nat then Fin x else NaN)
        :: ewm_from alpha min_periods 1 x tl
  end.

(** [np.where(emadn == 0, 100, 100 - (100 / (1 + emaup / emadn)))] *)
Definition rsi_value (emaup emadn : num) : num :=
  if Num.eqb emadn (Fin 0) then Fin 100
  else Num.sub (Fin 100)
         (Num.div (Fin 100) (Num.add (Fin 1) (Num.div emaup emadn))).

Fixpoint zip_with {A B C : Type} (f : A -> B -> C) (xs : list A)
    (ys : list B) : list C :=
  match xs, ys with
  | x :: xs', y :: ys' => f x y :: zip_with f xs' ys'
  | _, _ => []
  end.

(** [RSIIndicator(close, window=w).rsi()] of the [ta] package, with its
    default [fillna=False]: the differences of the closes are split into
    gains and losses, both are smoothed with [alpha = 1 / w] and
    [min_periods = w], and the index is taken entry by entry.  The first
    difference does not exist; it enters both series as [0.0], so the
    smoothed series have their first value at the [w]-th close. *)
Definition rsi_series (window : nat) (close : list num) : list num :=
  let d := diff close in
  let alpha := (1 / inject_Z (Z.of_nat window))%Q in
  let emaup := ewm_mean alpha window (map up_direction d) in
  let emadn := ewm_mean alpha window (map down_direction d) in
  zip_with rsi_value emaup emadn.

(** What the specification calls the arithmetic mean of a series: the sum
    of its entries over their number (NaN as soon as one entry is). *)
Definition arithmetic_mean (xs : list num) : num :=
  Num.div (fold_right Num.add (Fin 0) xs)
          (Fin (inject_Z (Z.of_nat (length xs)))).

(** ** Strings *)

Local Notation "a +++ b" := (String.append a b)
  (at level 60, right associativity).

Definition upper_char (c : ascii) : ascii :=
  let n := nat_of_ascii c in
  if ((97 <=? n) && (n <=? 122))%nat then ascii_of_nat (n - 32) else c.

(** [str.upper()], on ASCII text. *)
Fixpoint upper (s : string) : string :=
  match s with
  | EmptyString => EmptyString
  | String c tl => String (upper_char c) (upper tl)
  end.

(** The ASCII characters for which [str.isspace()] holds. *)
Definition is_space (c : ascii) : bool :=
  let n := nat_of_ascii c in
  (((9 <=? n) && (n <=? 13)) || ((28 <=? n) && (n <=? 32)))%nat.

Fixpoint lstrip (s : string) : string :=
  match s with
  | EmptyString => EmptyString
  | String c tl => if is_space c then lstrip tl else s
  end.

Fixpoint rstrip (s : string) : string :=
  match s with
  | EmptyString => EmptyString
  | String c tl =>
      match rstrip tl with
      | EmptyString => if is_space c then EmptyString else String c EmptyString
      | r => String c r
      end
  end.

(** [str.strip()] *)
Definition strip (s : string) : string := rstrip (lstrip s).

(** ** Effects: exceptions and the trace of what the program does *)

Inductive exn : Type :=
| ValueError (msg : string)
| KeyError (key : string)
| IndexError (msg : string)
| LibraryError (msg : string).

(** [str(e)] *)
Definition exn_str (e : exn) : string :=
  match e with
  | ValueError msg => msg
  | KeyError key => "'" +++ key +++ "'"
  | IndexError msg => msg
  | LibraryError msg => msg
  end.

Inductive event : Type :=
| Sleep (seconds : Z)
| LogInfo (msg : string)
| LogWarning (msg : string)
| LogError (msg : string)
| FetchInfo (ticker : string)
| FetchHistory (ticker period : string)
| FitForecast (rows periods : nat)
| HttpGet (url : string).

Inductive result (A : Type) : Type :=
| Ret (a : A)
| Raise (e : exn).
Arguments Ret {A} a.
Arguments Raise {A} e.

(** A computation returns or raises, and leaves the events it performed. *)
Definition M (A : Type) : Type := (result A * list event)%type.

Definition ret {A : Type} (a : A) : M A := (Ret a, []).

Definition raise {A : Type} (e : exn) : M A := (Raise e, []).

Definition emit (ev : event) : M unit := (Ret tt, [ev]).

Definition bind {A B : Type} (m : M A) (f : A -> M B) : M B :=
  match m with
  | (Ret a, tr) => let '(r, tr') := f a in (r, tr ++ tr')
  | (Raise e, tr) => (Raise e, tr)
  end.

Notation "x <- m ;; k" := (bind m (fun x => k))
  (at level 61, m at next level, right associativity).
Notation "m ;; k" := (bind m (fun _ => k))
  (at level 61, right associativity).

(** A pure access that raises when there is nothing to return. *)
Definition or_raise {A : Type} (o : option A) (e : exn) : M A :=
  match o with
  | Some a => ret a
  | None => raise e
  end.

(** ** The collaborators *)

(** The [info] mapping of a ticker, as far as the program reads it. *)
Record Info : Type := {
  regularMarketPrice : option num;
  longName : option string;
  info_volume : option Z
}.

(** The history frame: its date index, and the [Close] column when the
    frame has one. *)
Record DataFrame : Type := {
  rows : list (Z * num);
  has_close : bool
}.

(** [history.empty] *)
Definition df_empty (df : DataFrame) : bool :=
  match rows df with [] => true | _ => false end.

Definition df_index (df : DataFrame) : list Z := map fst (rows df).

(** The market data source, the forecast model and the news search: each
    answers or raises. *)
Record Upstream : Type := {
  ticker_info : string -> result Info;
  ticker_history : string -> string -> result DataFrame;
  prophet_yhat : list (Z * num) -> nat -> result num;
  news_items : string -> result (list (string * string))
}.

Definition lift {A : Type} (ev : event) (r : result A) : M A := (r, [ev]).

(** [history['Close']] *)
Definition get_close (df : DataFrame) : M (list num) :=
  if has_close df then ret (map snd (rows df))
  else raise (KeyError "Close").

(** [history['Close'][-1]]: the last close, by position. *)
Definition close_last (df : DataFrame) : M num :=
  close <- get_close df ;;
  or_raise (iloc_last close) (IndexError "index -1 is out of bounds").

(** ** The snapshot *)

Record EcoScore : Type := { score : Z; carbon : Z }.

Definition eco_scores : list (string * EcoScore) :=
  [ ("AAPL"%string, {| score := 75; carbon := 4500 |});
    ("MSFT"%string, {| score := 80; carbon := 3800 |});
    ("TSLA"%string, {| score := 95; carbon := 2000 |}) ].

(** [dict.get(key)] on a dictionary kept in insertion order. *)
Fixpoint dict_get {V : Type} (d : list (string * V)) (key : string)
    : option V :=
  match d with
  | [] => None
  | (k, v) :: tl => if String.eqb k key then Some v else dict_get tl key
  end.

Definition get_or {V : Type} (o : option V) (default : V) : V :=
  match o with Some v => v | None => default end.

Record Snapshot : Type := {
  name : string;
  price : num;
  sma_20 : num;
  rsi : num;
  decision : Decision;
  volume : Z;
  change : num;
  chart_data : list num;
  prediction : num;
  eco_score : EcoScore
}.

(** The [change] entry: the percentage against the previous close, [0] for
    a series of one. *)
Definition change_percent (current_price : num) (close : list num) : M num :=
  if (1 <? length close)%nat then
    prev <- or_raise (iloc_last2 close) (IndexError "index -2 is out of bounds") ;;
    ret (round2 (Num.mul (Num.div (Num.sub current_price prev) prev) (Fin 100)))
  else ret (Fin 0).

(** ** The pipeline *)

(** The quote and the history: the two branches on
    ['regularMarketPrice' not in info]. *)
Definition quote_and_history (u : Upstream) (ticker : string) (info : Info)
    : M (DataFrame * num) :=
  match regularMarketPrice info with
  | None =>
      emit (LogWarning ("No 'regularMarketPrice' in info for " +++ ticker
                        +++ ", trying history")) ;;
      history <- lift (FetchHistory ticker "30d") (ticker_history u ticker "30d") ;;
      if df_empty history || negb (has_close history) then
        raise (ValueError ("No data available for ticker: " +++ ticker))
      else
        current_price <- close_last history ;;
        ret (history, current_price)
  | Some market_price =>
      history <- lift (FetchHistory ticker "30d") (ticker_history u ticker "30d") ;;
      (* the default of [info.get] is evaluated before the call *)
      _ <- close_last history ;;
      ret (history, market_price)
  end.

(** The body of the [try] block of [get_stock_data]. *)
Definition get_stock_data_try (u : Upstream) (ticker : string) : M Snapshot :=
  emit (Sleep 1) ;;
  emit (LogInfo ("Fetching data for ticker: " +++ ticker)) ;;
  info <- lift (FetchInfo ticker) (ticker_info u ticker) ;;
  hp <- quote_and_history u ticker info ;;
  let '(history, current_price) := hp in
  if df_empty history || negb (has_close history) then
    raise (ValueError ("No historical data for ticker: " +++ ticker))
  else
    close <- get_close history ;;
    sma <- or_raise (iloc_last (rolling_mean 20 close))
                    (IndexError "single positional indexer is out-of-bounds") ;;
    rsi14 <- or_raise (iloc_last (rsi_series 14 close))
                      (IndexError "single positional indexer is out-of-bounds") ;;
    let chart := tail 30 close in
    yhat <- lift (FitForecast (length close) 7)
                 (prophet_yhat u (combine (df_index history) close) 7) ;;
    let forecast := round2 yhat in
    emit (LogInfo ("Successfully fetched data for ticker: " +++ ticker)) ;;
    chg <- change_percent current_price close ;;
    ret {| name := get_or (longName info) ticker;
           price := round2 current_price;
           sma_20 := round2 sma;
           rsi := round2 rsi14;
           decision := decision_of current_price sma;
           volume := get_or (info_volume info) 0;
           change := chg;
           chart_data := chart;
           prediction := forecast;
           eco_score := get_or (dict_get eco_scores ticker)
                               {| score := 50; carbon := 5000 |} |}.

(** [get_stock_data] without its cache: the [try] block and the handler
    [except Exception], which logs and returns [None]. *)
Definition get_stock_data_body (u : Upstream) (ticker : string)
    : option Snapshot * list event :=
  match get_stock_data_try u ticker with
  | (Ret snapshot, tr) => (Some snapshot, tr)
  | (Raise e, tr) =>
      (None, tr ++ [LogError ("Error fetching data for " +++ ticker +++ ": "
                              +++ exn_str e)])
  end.

(** ** The cache: [functools.lru_cache(maxsize=128)] *)

(** The entries, the most recently used first.  The wrapper stores what
    the function returned, [None] included. *)
Definition Cache : Type := list (string * option Snapshot).

Definition maxsize : nat := 128.

Fixpoint cache_find (c : Cache) (key : string) : option (option Snapshot) :=
  match c with
  | [] => None
  | (k, v) :: tl => if String.eqb k key then Some v else cache_find tl key
  end.

Fixpoint cache_remove (c : Cache) (key : string) : Cache :=
  match c with
  | [] => []
  | (k, v) :: tl =>
      if String.eqb k key then cache_remove tl key
      else (k, v) :: cache_remove tl key
  end.

(** Room for one more entry: when the cache is full the least recently
    used entry goes. *)
Definition cache_make_room (c : Cache) : Cache :=
  if (length c <? maxsize)%nat then c else removelast c.

(** The decorated [get_stock_data]: a hit returns the stored value and
    makes the entry the most recent one; a miss runs the function and
    stores what it returned. *)
Definition get_stock_data (u : Upstream) (c : Cache) (ticker : string)
    : option Snapshot * Cache * list event :=
  match cache_find c ticker with
  | Some stored => (stored, (ticker, stored) :: cache_remove c ticker, [])
  | None =>
      let '(r, tr) := get_stock_data_body u ticker in
      (r, (ticker, r) :: cache_make_room c, tr)
  end.

(** A run of calls, each against the market as it is at that moment. *)
Fixpoint fetch_all (c : Cache) (calls : list (Upstream * string)) : Cache :=
  match calls with
  | [] => c
  | (u, ticker) :: rest =>
      let '(_, c', _) := get_stock_data u c ticker in fetch_all c' rest
  end.

(** ** The portfolio and the [home] handler *)

Definition Portfolio : Type := list (string * Snapshot).

(** [portfolio[key] = value]: an existing key keeps its place. *)
Fixpoint dict_set {V : Type} (d : list (string * V)) (key : string)
    (value : V) : list (string * V) :=
  match d with
  | [] => [(key, value)]
  | (k, v) :: tl =>
      if String.eqb k key then (k, value) :: tl
      else (k, v) :: dict_set tl key value
  end.

(** [portfolio.pop(key, None)] *)
Fixpoint dict_pop {V : Type} (d : list (string * V)) (key : string)
    : list (string * V) :=
  match d with
  | [] => []
  | (k, v) :: tl =>
      if String.eqb k key then tl else (k, v) :: dict_pop tl key
  end.

Record AppState : Type := {
  portfolio : Portfolio;
  cache : Cache
}.

Inductive Request : Type :=
| GET
| POST (form_ticker : string).

(** [get_stock_news]: one request; any failure gives the empty list. *)
Definition get_stock_news (u : Upstream) (ticker : string)
    : list (string * string) * list event :=
  (match news_items u ticker with
   | Ret items => firstn 3 items
   | Raise _ => []
   end,
   [HttpGet ("https://www.google.com/search?q=" +++ ticker
             +++ "+stock+news&tbm=nws")]).

(** The comprehension
    [{ticker: get_stock_news(ticker) for ticker in portfolio.keys()
      if get_stock_data(ticker)}]. *)
Fixpoint collect_news (u : Upstream) (c : Cache) (keys : list string)
    : list (string * list (string * string)) * Cache * list event :=
  match keys with
  | [] => ([], c, [])
  | ticker :: rest =>
      let '(data, c1, tr1) := get_stock_data u c ticker in
      match data with
      | Some _ =>
          let '(items, tr2) := get_stock_news u ticker in
          let '(news, c2, tr3) := collect_news u c1 rest in
          ((ticker, items) :: news, c2, tr1 ++ tr2 ++ tr3)
      | None =>
          let '(news, c2, tr3) := collect_news u c1 rest in
          (news, c2, tr1 ++ tr3)
      end
  end.

Record Page : Type := {
  page_error : option string;
  page_portfolio : Portfolio;
  page_news : list (string * list (string * string))
}.

(** The ticker as the handler reads it from the form. *)
Definition normalize (form_ticker : string) : string :=
  strip (upper form_ticker).

(** The part of [home] before the news are collected: the [POST] branch. *)
Definition home_post (u : Upstream) (st : AppState) (form_ticker : string)
    : AppState * option string * list event :=
  let ticker := normalize form_ticker in
  let '(data, c, tr) := get_stock_data u (cache st) ticker in
  match data with
  | Some snapshot =>
      ({| portfolio := dict_set (portfolio st) ticker snapshot; cache := c |},
       None, tr)
  | None =>
      ({| portfolio := portfolio st; cache := c |},
       Some ("Invalid ticker: " +++ ticker), tr)
  end.

Definition home (u : Upstream) (st : AppState) (req : Request)
    : AppState * Page * list event :=
  let '(st1, error, tr1) :=
    match req with
    | POST form_ticker => home_post u st form_ticker
    | GET => (st, None, [])
    end in
  let '(news, c, tr2) :=
    collect_news u (cache st1) (map fst (portfolio st1)) in
  ({| portfolio := portfolio st1; cache := c |},
   {| page_error := error; page_portfolio := portfolio st1; page_news := news |},
   tr1 ++ tr2).

(** [remove_stock] *)
Definition remove_stock (st : AppState) (ticker : string) : AppState :=
  {| portfolio := dict_pop (portfolio st) ticker; cache := cache st |}.

(** ** Vocabulary of the statements *)

(** The quote is the market price when [info] has one, the last close
    otherwise. *)
Definition quote_of (info : Info) (close : list num) : option num :=
  match regularMarketPrice info with
  | Some market_price => Some market_price
  | None => iloc_last close
  end.

(** The closes of a history frame. *)
Definition closes (history : DataFrame) : list num := map snd (rows history).

(** Every numeric entry of a snapshot, the chart included, is rounded to
    two decimals. *)
Definition all_rounded (s : Snapshot) : Prop :=
  rounded2 (price s) /\ rounded2 (sma_20 s) /\ rounded2 (rsi s)
  /\ rounded2 (change s) /\ rounded2 (prediction s)
  /\ Forall rounded2 (chart_data s).

(** Failures come back tagged: the result of a failed run determines the
    symbol and what was raised. *)
Definition failures_are_tagged : Prop :=
  exists failure_of : option Snapshot -> option (string * exn),
    forall (u : Upstream) (ticker : string) (e : exn) (tr : list event),
      get_stock_data_try u ticker = (Raise e, tr) ->
      failure_of (fst (get_stock_data_body u ticker)) = Some (ticker, e).

Definition count (p : event -> bool) (tr : list event) : nat :=
  length (filter p tr).

Definition is_sleep (ev : event) : bool :=
  match ev with Sleep _ => true | _ => false end.

Definition is_fetch_info (ev : event) : bool :=
  match ev with FetchInfo _ => true | _ => false end.

Definition is_fetch_history (ev : event) : bool :=
  match ev with FetchHistory _ _ => true | _ => false end.

Definition is_fit (ev : event) : bool :=
  match ev with FitForecast _ _ => true | _ => false end.

(** The symbols still in the cache. *)
Definition cached_symbols (c : Cache) : list string := map fst c.

(** The distinct symbols of a run of calls. *)
Definition distinct_symbols (calls : list (Upstream * string)) : list string :=
  nodup string_dec (map snd calls).

(** What the cache keeps, against the symbols asked for so far: no symbol
    twice, only symbols that were asked for, never more than [maxsize],
    and all of them as long as there is room. *)
Definition cache_inv (c : Cache) (seen : list string) : Prop :=
  NoDup (cached_symbols c)
  /\ incl (cached_symbols c) seen
  /\ (length c <= maxsize)%nat
  /\ ((length c < maxsize)%nat -> incl seen (cached_symbols c)).

(** A string that does not begin with white space. *)
Definition clean_start (s : string) : Prop :=
  match s with
  | EmptyString => True
  | String c _ => is_space c = false
  end.

(** ** Sample markets *)

Module Samples.

(** Twenty closes with mean 100. *)
Definition closes20 : list num :=
  map (fun z => Fin (inject_Z z))
      [100; 102; 98; 101; 99; 100; 103; 97; 100; 100;
       104; 96; 100; 105; 95; 100; 101; 99; 102; 98].

(** Fourteen closes, one short of fourteen differences. *)
Definition closes14 : list num :=
  map (fun z => Fin (inject_Z z))
      [100; 102; 98; 101; 99; 100; 103; 97; 100; 100; 104; 96; 100; 105].

(** Five closes, the last two with a third decimal. *)
Definition closes5 : list num :=
  [Fin 100; Fin 101; Fin 99; Fin (100123 # 1000); Fin (101456 # 1000)].

Definition frame (closes : list num) : DataFrame :=
  {| rows := combine (map Z.of_nat (seq 0 (length closes))) closes;
     has_close := true |}.

(** A market that knows every ticker, quotes it at [quote] and serves
    [closes] as its history. *)
Definition market (quote : num) (closes : list num) : Upstream :=
  {| ticker_info := fun _ =>
       Ret {| regularMarketPrice := Some quote;
              longName := Some "Apple Inc."%string;
              info_volume := Some 1000 |};
     ticker_history := fun _ _ => Ret (frame closes);
     prophet_yhat := fun _ _ => Ret (Fin (101237 # 1000));
     news_items := fun _ => Ret [] |}.

(** A market that cannot be reached. *)
Definition unreachable : Upstream :=
  {| ticker_info := fun _ => Raise (LibraryError "Read timed out");
     ticker_history := fun _ _ => Raise (LibraryError "Read timed out");
     prophet_yhat := fun _ _ => Raise (LibraryError "unreachable");
     news_items := fun _ => Raise (LibraryError "Read timed out") |}.

(** A market that answers but has no rows for the ticker. *)
Definition delisted : Upstream :=
  {| ticker_info := fun _ =>
       Ret {| regularMarketPrice := None; longName := None;
              info_volume := None |};
     ticker_history := fun _ _ => Ret {| rows := []; has_close := false |};
     prophet_yhat := fun _ _ => Raise (LibraryError "no rows");
     news_items := fun _ => Ret [] |}.







End Samples.

(** ** The rest of the application *)

(** [export_portfolio]: nothing to export is a 400; otherwise the
    portfolio goes out as an attachment.  The CSV text is what [pandas]
    writes for the frame and [now] is the time stamp of the request, both
    given from outside. *)
Inductive Response : Type :=
| Status400 (body : string)
| Attachment (content mimetype download_name : string).

Definition export_portfolio (to_csv : Portfolio -> string) (now : string)
    (st : AppState) : Response :=
  match portfolio st with
  | [] => Status400 "Portfolio is empty!"
  | _ =>
      Attachment (to_csv (portfolio st)) "text/csv"
                 ("kalilfin_portfolio_" +++ now +++ ".csv")
  end.

(** The requests the application serves, each against the market as it is
    at that moment. *)
Inductive Action : Type :=
| Home (u : Upstream) (req : Request)
| Remove (ticker : string).

Definition serve (st : AppState) (a : Action) : AppState :=
  match a with
  | Home u req => fst (fst (home u st req))
  | Remove ticker => remove_stock st ticker
  end.

(** The state after a run of requests. *)
Definition run_app (st : AppState) (actions : list Action) : AppState :=
  fold_left serve actions st.

(** The state in which the application starts: [portfolio = {}] and an
    empty cache. *)
Definition initial : AppState := {| portfolio := []; cache := [] |}.

(** ** More vocabulary *)

(** The symbols held. *)
Definition held_symbols (st : AppState) : list string :=
  map fst (portfolio st).

(** A snapshot that a successful run for [ticker] returned. *)
Definition produced (ticker : string) (s : Snapshot) : Prop :=
  exists (u : Upstream) (tr : list event),
    get_stock_data_try u ticker = (Ret s, tr).



(** A cache in good order: no symbol twice, no more than [maxsize]
    entries. *)
Definition cache_wf (c : Cache) : Prop :=
  NoDup (cached_symbols c) /\ (length c <= maxsize)%nat.

(** The entry of [ticker] is in the cache with value [v], and only
    symbols of [seen] are ahead of it. *)
Definition kept (ticker : string) (v : option Snapshot) (seen : list string)
    (c : Cache) : Prop :=
  cache_wf c
  /\ exists pre post : Cache,
       c = pre ++ (ticker, v) :: post
       /\ incl (cached_symbols pre) seen.

(** What holds of the application whatever it has served. *)
Definition app_inv (st : AppState) : Prop :=
  NoDup (held_symbols st)
  /\ cache_wf (cache st)
  /\ (forall (k : string) (s : Snapshot),
        In (k, s) (portfolio st) ->
        upper k = k /\ strip k = k /\ produced k s)
  /\ (forall (k : string) (s : Snapshot),
        In (k, Some s) (cache st) -> produced k s).

(** The warning a run logs when [info] has no market price. *)
Definition price_warning (ticker : string) (info : Info) : list event :=
  match regularMarketPrice info with
  | None => [LogWarning ("No 'regularMarketPrice' in info for " +++ ticker
                         +++ ", trying history")]
  | Some _ => []
  end.

Module Scenarios.

(** Fourteen closes that never fall. *)
Definition rising14 : list num :=
  map (fun z => Fin (inject_Z z))
      [100; 100; 101; 101; 102; 104; 104; 105; 105; 105; 106; 108; 108; 109].

(** One close. *)
Definition single : list num := [Fin 100].

(** A market without a quote in [info]: the price is read off the
    history. *)
Definition quiet_market (closes : list num) : Upstream :=
  {| ticker_info := fun _ =>
       Ret {| regularMarketPrice := None; longName := None;
              info_volume := None |};
     ticker_history := fun _ _ => Ret (Samples.frame closes);
     prophet_yhat := fun _ _ => Ret (Fin 100);
     news_items := fun _ =>
       Ret [("a", "/a"); ("b", "/b"); ("c", "/c"); ("d", "/d")]%string |}.

End Scenarios.

(** * Properties *)

(** One step through the pipeline: reduce the monad, then split on the
    next answer of a collaborator or the next test. *)
Ltac run_cbn := cbn [bind emit lift ret raise or_raise fst snd orb negb].

Ltac run_split :=
  match goal with
  | |- context [ticker_info ?u ?t] => destruct (ticker_info u t)
  | |- context [ticker_history ?u ?t ?p] => destruct (ticker_history u t p)
  | |- context [prophet_yhat ?u ?d ?n] => destruct (prophet_yhat u d n)
  | |- context [regularMarketPrice ?i] => destruct (regularMarketPrice i)
  | |- context [df_empty ?h] => destruct (df_empty h)
  | |- context [has_close ?h] => destruct (has_close h)
  | |- context [iloc_last ?l] => destruct (iloc_last l)
  | |- context [iloc_last2 ?l] => destruct (iloc_last2 l)
  | |- context [(1 <? ?n)%nat] => destruct (1 <? n)%nat
  end.

Ltac run_step := run_cbn; run_split.

(** As [run_split], keeping what each answer was. *)
Ltac run_split_eq :=
  match goal with
  | |- context [ticker_info ?u ?t] => destruct (ticker_info u t) eqn:?
  | |- context [ticker_history ?u ?t ?p] => destruct (ticker_history u t p) eqn:?
  | |- context [prophet_yhat ?u ?d ?n] => destruct (prophet_yhat u d n) eqn:?
  | |- context [regularMarketPrice ?i] => destruct (regularMarketPrice i) eqn:?
  | |- context [df_empty ?h] => destruct (df_empty h) eqn:?
  | |- context [has_close ?h] => destruct (has_close h) eqn:?
  | |- context [iloc_last ?l] => destruct (iloc_last l) eqn:?
  | |- context [iloc_last2 ?l] => destruct (iloc_last2 l) eqn:?
  | |- context [(1 <? ?n)%nat] => destruct (1 <? n)%nat eqn:?
  end.

Ltac in_trace H :=
  cbn [In app] in H;
  repeat (destruct H as [H | H]; [try discriminate |]);
  try contradiction.

(** ** Numbers *)

Section NumFacts.

Lemma num_eq_refl (x : num) : num_eq x x.
Proof. destruct x; simpl; [exact I | reflexivity]. Qed.

Lemma ltb_lt (a b : Q) : Num.ltb (Fin a) (Fin b) = true <-> (a < b)%Q.
Proof.
  unfold Num.ltb. rewrite Qlt_alt.
  destruct (a ?= b)%Q; split; congruence.
Qed.

Lemma ltb_nan_r (x : num) : Num.ltb x NaN = false.
Proof. destruct x; reflexivity. Qed.

Lemma gtb_nan_r (x : num) : Num.gtb x NaN = false.
Proof. reflexivity. Qed.

Lemma round_half_even_range (q : Q) :
  (Qfloor q <= round_half_even q <= Qfloor q + 1)%Z.
Proof.
  unfold round_half_even.
  destruct (q - inject_Z (Qfloor q) ?= 1 # 2)%Q; [destruct (Z.even _) | |]; lia.
Qed.

(** Rounding an exact integer leaves it alone. *)
Lemma round_half_even_Z (z : Z) : round_half_even (inject_Z z) = z.
Proof.
  unfold round_half_even. rewrite Qfloor_Z.
  assert (H : (inject_Z z - inject_Z z ?= 1 # 2)%Q = Lt).
  { apply (proj1 (Qlt_alt _ _)). lra. }
  now rewrite H.
Qed.

(** Rounding stays between integer bounds. *)
Lemma round_half_even_between (lo hi : Z) (q : Q) :
  (inject_Z lo <= q <= inject_Z hi)%Q ->
  (lo <= round_half_even q <= hi)%Z.
Proof.
  intros [Hlo Hhi].
  pose proof (round_half_even_range q) as [H1 H2].
  split.
  - apply Qfloor_resp_le in Hlo. rewrite Qfloor_Z in Hlo. lia.
  - destruct (Qle_lt_or_eq _ _ Hhi) as [Hlt | Heq].
    + assert (Qfloor q < hi)%Z; [| lia].
      assert (Hq : (inject_Z (Qfloor q) < inject_Z hi)%Q)
        by (eapply Qle_lt_trans; [apply Qfloor_le | exact Hlt]).
      now rewrite <- Zlt_Qlt in Hq.
    + assert (Hf : Qfloor q = hi)
        by (rewrite (Qfloor_comp _ _ Heq); apply Qfloor_Z).
      unfold round_half_even. rewrite Hf.
      assert (Hc : (q - inject_Z hi ?= 1 # 2)%Q = Lt)
        by (apply (proj1 (Qlt_alt _ _)); lra).
      rewrite Hc. lia.
Qed.

Lemma round2_rounded (x : num) : rounded2 (round2 x).
Proof.
  destruct x as [| q]; simpl; [exact I |].
  exists (round_half_even (q * 100)). reflexivity.
Qed.

Lemma round2_nan (x : num) : round2 x = NaN <-> x = NaN.
Proof. destruct x; simpl; split; congruence. Qed.

Lemma round2_within_0_100 (x : num) :
  within 0 100 x -> within 0 100 (round2 x).
Proof.
  destruct x as [| q]; simpl; [tauto |].
  intros [Hlo Hhi].
  destruct (round_half_even_between 0 10000 (q * 100)) as [H1 H2].
  { change (inject_Z 0) with 0%Q. change (inject_Z 10000) with (10000 # 1)%Q.
    split; lra. }
  unfold Qle; simpl. lia.
Qed.

End NumFacts.

(** ** Running the pipeline *)

Section Pipeline.

Lemma bind_ret_inv {A B : Type} (m : M A) (f : A -> M B) (b : B)
    (tr : list event) :
  bind m f = (Ret b, tr) ->
  exists a tr1 tr2, m = (Ret a, tr1) /\ f a = (Ret b, tr2) /\ tr = tr1 ++ tr2.
Proof.
  unfold bind. destruct m as [[a | e] tr1]; [| discriminate].
  destruct (f a) as [r tr2] eqn:Hf. intros H. inversion H; subst.
  now exists a, tr1, tr2.
Qed.

Lemma lift_ret_inv {A : Type} (ev : event) (r : result A) (a : A)
    (tr : list event) :
  lift ev r = (Ret a, tr) -> r = Ret a /\ tr = [ev].
Proof. unfold lift. intros H. inversion H. auto. Qed.

Lemma or_raise_ret_inv {A : Type} (o : option A) (e : exn) (a : A)
    (tr : list event) :
  or_raise o e = (Ret a, tr) -> o = Some a /\ tr = [].
Proof. destruct o; simpl; intros H; inversion H; auto. Qed.

Lemma get_close_ret_inv (df : DataFrame) (close : list num) (tr : list event) :
  get_close df = (Ret close, tr) ->
  has_close df = true /\ close = map snd (rows df) /\ tr = [].
Proof.
  unfold get_close. destruct (has_close df); intros H; inversion H; auto.
Qed.

Lemma quote_and_history_ret (u : Upstream) (ticker : string) (info : Info)
    (history : DataFrame) (p : num) (tr : list event) :
  quote_and_history u ticker info = (Ret (history, p), tr) ->
  ticker_history u ticker "30d" = Ret history
  /\ quote_of info (map snd (rows history)) = Some p
  /\ In (FetchHistory ticker "30d") tr.
Proof.
  unfold quote_and_history, quote_of, close_last.
  destruct (regularMarketPrice info) as [mp |]; intros H.
  - apply bind_ret_inv in H as (h & tr1 & tr2 & H1 & H2 & ->).
    apply lift_ret_inv in H1 as [H1 ->].
    apply bind_ret_inv in H2 as (x & tr3 & tr4 & H2 & H3 & ->).
    inversion H3; subst. repeat split; auto. now left.
  - apply bind_ret_inv in H as ([] & tr1 & tr2 & H1 & H2 & ->).
    apply bind_ret_inv in H2 as (h & tr3 & tr4 & H2 & H3 & ->).
    apply lift_ret_inv in H2 as [H2 ->].
    destruct (df_empty h || negb (has_close h)); [discriminate |].
    apply bind_ret_inv in H3 as (x & tr5 & tr6 & H3 & H4 & ->).
    inversion H4; subst.
    apply bind_ret_inv in H3 as (close & tr7 & tr8 & H5 & H6 & ->).
    apply get_close_ret_inv in H5 as (_ & -> & ->).
    apply or_raise_ret_inv in H6 as [H6 ->].
    repeat split; auto.
    inversion H1; subst. simpl. auto.
Qed.

(** What a successful run has read and what it has put in each entry. *)
Lemma get_stock_data_try_ret (u : Upstream) (ticker : string) (s : Snapshot)
    (tr : list event) :
  get_stock_data_try u ticker = (Ret s, tr) ->
  exists (info : Info) (history : DataFrame) (p sma rsi14 yhat : num),
    let close := map snd (rows history) in
    ticker_info u ticker = Ret info
    /\ ticker_history u ticker "30d" = Ret history
    /\ has_close history = true
    /\ rows history <> []
    /\ quote_of info close = Some p
    /\ iloc_last (rolling_mean 20 close) = Some sma
    /\ iloc_last (rsi_series 14 close) = Some rsi14
    /\ prophet_yhat u (combine (df_index history) close) 7 = Ret yhat
    /\ fst (change_percent p close) = Ret (change s)
    /\ price s = round2 p
    /\ sma_20 s = round2 sma
    /\ rsi s = round2 rsi14
    /\ decision s = decision_of p sma
    /\ chart_data s = tail 30 close
    /\ prediction s = round2 yhat.
Proof.
  unfold get_stock_data_try. intros H.
  apply bind_ret_inv in H as ([] & tr1 & tr2 & _ & H & ->).
  apply bind_ret_inv in H as ([] & tr3 & tr4 & _ & H & ->).
  apply bind_ret_inv in H as (info & tr5 & tr6 & Hi & H & ->).
  apply lift_ret_inv in Hi as [Hi ->].
  apply bind_ret_inv in H as ([history p] & tr7 & tr8 & Hq & H & ->).
  apply quote_and_history_ret in Hq as (Hh & Hp & _).
  destruct (df_empty history) eqn:He; [discriminate |].
  destruct (has_close history) eqn:Hc; [| discriminate].
  cbn [orb negb] in H.
  apply bind_ret_inv in H as (close & tr9 & tr10 & Hcl & H & ->).
  apply get_close_ret_inv in Hcl as (_ & -> & ->).
  apply bind_ret_inv in H as (sma & tr11 & tr12 & Hs & H & ->).
  apply or_raise_ret_inv in Hs as [Hs ->].
  apply bind_ret_inv in H as (rsi14 & tr13 & tr14 & Hr & H & ->).
  apply or_raise_ret_inv in Hr as [Hr ->].
  apply bind_ret_inv in H as (yhat & tr15 & tr16 & Hy & H & ->).
  apply lift_ret_inv in Hy as [Hy ->].
  apply bind_ret_inv in H as ([] & tr17 & tr18 & _ & H & ->).
  apply bind_ret_inv in H as (chg & tr19 & tr20 & Hg & H & ->).
  inversion H; subst; clear H.
  exists info, history, p, sma, rsi14, yhat. simpl.
  rewrite Hg. simpl.
  repeat split; auto.
  unfold df_empty in He. destruct (rows history); [discriminate | congruence].
Qed.




Lemma get_stock_data_body_some (u : Upstream) (ticker : string) (s : Snapshot) :
  fst (get_stock_data_body u ticker) = Some s ->
  exists tr, get_stock_data_try u ticker = (Ret s, tr).
Proof.
  unfold get_stock_data_body.
  destruct (get_stock_data_try u ticker) as [[s' | e] tr]; simpl; intros H;
    inversion H; subst. now exists tr.
Qed.

End Pipeline.

(** ** The moving average *)

Section MovingAverage.

Lemma iloc_last_map_seq {A : Type} (f : nat -> A) (n a : nat) :
  iloc_last (map f (seq a (S n))) = Some (f (a + n)%nat).
Proof.
  revert a. induction n as [| n IH]; intros a.
  - simpl. now rewrite Nat.add_0_r.
  - change (seq a (S (S n))) with (a :: seq (S a) (S n)).
    rewrite map_cons.
    specialize (IH (S a)).
    destruct (map f (seq (S a) (S n))) eqn:Hm; [discriminate |].
    simpl. simpl in IH. rewrite IH. f_equal. f_equal. lia.
Qed.

(** The last entry of the rolling mean is the mean of the window formed
    by the trailing entries. *)
Lemma rolling_mean_last (w : nat) (xs : list num) :
  xs <> [] ->
  iloc_last (rolling_mean w xs) = Some (window_mean w (tail w xs)).
Proof.
  intros Hne. unfold rolling_mean, tail.
  destruct (length xs) as [| n] eqn:Hlen.
  - destruct xs; [congruence | discriminate].
  - rewrite iloc_last_map_seq. simpl Nat.add.
    rewrite <- Hlen, firstn_all. reflexivity.
Qed.

Lemma tail_length {A : Type} (n : nat) (xs : list A) :
  length (tail n xs) = Nat.min n (length xs).
Proof. unfold tail. rewrite length_skipn. lia. Qed.

Lemma observations_le (w : list num) : (snd (observations w) <= length w)%nat.
Proof.
  induction w as [| [| q] tl IH]; simpl; auto.
  destruct (observations tl). simpl in *. lia.
Qed.

(** A window with a NaN has fewer observations than entries; a window
    without has all of them, and their sum is the sum of the entries. *)
Lemma observations_sum (w : list num) :
  match fold_right Num.add (Fin 0) w with
  | Fin s => observations w = (s, length w)
  | NaN => (snd (observations w) < length w)%nat
  end.
Proof.
  induction w as [| [| q] tl IH]; simpl.
  - reflexivity.
  - pose proof (observations_le tl). lia.
  - destruct (fold_right Num.add (Fin 0) tl) as [| s]; simpl.
    + destruct (observations tl). simpl in *. lia.
    + now rewrite IH.
Qed.

Lemma window_mean_short (m : nat) (w : list num) :
  (length w < m)%nat -> window_mean m w = NaN.
Proof.
  intros H. unfold window_mean.
  pose proof (observations_le w) as Hle.
  destruct (observations w) as [s n]. simpl in Hle.
  assert (Hlt : (n <? m)%nat = true) by (apply Nat.ltb_lt; lia).
  now rewrite Hlt.
Qed.

Lemma window_mean_full (m : nat) (w : list num) :
  length w = m -> (0 < m)%nat -> window_mean m w = arithmetic_mean w.
Proof.
  intros Hlen Hpos. unfold window_mean, arithmetic_mean.
  pose proof (observations_sum w) as Hs.
  destruct (fold_right Num.add (Fin 0) w) as [| s].
  - destruct (observations w) as [s n]. simpl in Hs.
    assert (Hlt : (n <? m)%nat = true) by (apply Nat.ltb_lt; lia).
    now rewrite Hlt.
  - rewrite Hs, Hlen, Nat.ltb_irrefl. simpl.
    assert (Hz : Qeq_bool (inject_Z (Z.of_nat m)) 0 = false).
    { destruct (Qeq_bool (inject_Z (Z.of_nat m)) 0) eqn:E; [| reflexivity].
      apply Qeq_bool_eq in E. unfold Qeq in E. simpl in E. lia. }
    now rewrite Hz.
Qed.

(** The moving average the pipeline reads, for a series of any length. *)
Lemma sma_of_series (close : list num) (sma : num) :
  iloc_last (rolling_mean 20 close) = Some sma ->
  ((20 <= length close)%nat -> sma = arithmetic_mean (tail 20 close))
  /\ ((length close < 20)%nat -> sma = NaN).
Proof.
  intros H.
  assert (Hne : close <> []) by (intros ->; discriminate).
  rewrite (rolling_mean_last 20 close Hne) in H. inversion H; subst. split.
  - intros Hlen. apply window_mean_full; [| lia].
    rewrite tail_length. lia.
  - intros Hlen. apply window_mean_short. rewrite tail_length. lia.
Qed.

End MovingAverage.

(** ** The relative strength index *)

Section RelativeStrength.

Lemma up_direction_nonneg (d : num) : (0 <= up_direction d)%Q.
Proof.
  destruct d as [| q]; unfold up_direction, Num.gtb; [lra |].
  destruct (Num.ltb (Fin 0) (Fin q)) eqn:E; [| lra].
  apply ltb_lt in E. lra.
Qed.

Lemma down_direction_nonneg (d : num) : (0 <= down_direction d)%Q.
Proof.
  destruct d as [| q]; unfold down_direction; [lra |].
  destruct (Num.ltb (Fin q) (Fin 0)) eqn:E; [| lra].
  apply ltb_lt in E. lra.
Qed.

Lemma diff_length (xs : list num) : length (diff xs) = length xs.
Proof.
  destruct xs as [| x tl]; simpl; [reflexivity |]. f_equal.
  revert x. induction tl as [| y tl IH]; intros x; simpl; auto.
Qed.

(** The index of finite, non-negative averages lies between 0 and 100. *)
Lemma rsi_value_within (a b : Q) :
  (0 <= a)%Q -> (0 <= b)%Q -> within 0 100 (rsi_value (Fin a) (Fin b)).
Proof.
  intros Ha Hb. unfold rsi_value. simpl Num.eqb.
  destruct (Qeq_bool b 0) eqn:Eb.
  - simpl. lra.
  - pose proof (Qeq_bool_neq _ _ Eb) as Hne.
    assert (Hbpos : (0 < b)%Q) by (destruct (Qle_lt_or_eq _ _ Hb) as [H | H];
                                    [exact H | symmetry in H; contradiction]).
    assert (Hr : (0 <= a / b)%Q) by (apply Qle_shift_div_l; lra).
    unfold Num.div at 2. rewrite Eb. unfold Num.add, Num.div.
    destruct (Qeq_bool (1 + a / b) 0) eqn:E1.
    { apply Qeq_bool_eq in E1. lra. }
    unfold Num.sub, within.
    assert (H1 : (0 <= 100 / (1 + a / b))%Q) by (apply Qle_shift_div_l; lra).
    assert (H2 : (100 / (1 + a / b) <= 100)%Q) by (apply Qle_shift_div_r; lra).
    lra.
Qed.

Lemma rsi_value_nan : rsi_value NaN NaN = NaN.
Proof. reflexivity. Qed.

Section Smoothing.

Variable alpha : Q.
Variable m : nat.
Hypothesis alpha_unit : (0 <= alpha <= 1)%Q.

(** The entries of the index along the two smoothed series: NaN until
    [m] observations have been seen, between 0 and 100 from then on. *)
Lemma rsi_from_last :
  forall (ups dns : list Q) (k : nat) (a b : Q) (r : num),
    length ups = length dns ->
    (0 <= a)%Q -> (0 <= b)%Q ->
    Forall (fun x => 0 <= x)%Q ups -> Forall (fun x => 0 <= x)%Q dns ->
    iloc_last (zip_with rsi_value (ewm_from alpha m k a ups)
                                  (ewm_from alpha m k b dns)) = Some r ->
    ((k + length ups < m)%nat -> r = NaN)
    /\ ((m <= k + length ups)%nat -> within 0 100 r).
Proof.
  induction ups as [| x ups IH]; intros dns k a b r Hlen Ha Hb Hu Hd Hr.
  - discriminate.
  - destruct dns as [| y dns]; [discriminate |].
    inversion Hu as [| ? ? Hx Hu']; inversion Hd as [| ? ? Hy Hd']; subst.
    assert (Ha' : (0 <= (1 - alpha) * a + alpha * x)%Q) by nra.
    assert (Hb' : (0 <= (1 - alpha) * b + alpha * y)%Q) by nra.
    destruct ups as [| x2 ups].
    + destruct dns; [| discriminate].
      simpl in Hr. simpl length.
      destruct (m <=? S k)%nat eqn:E; inversion Hr; subst; split; intros H.
      * apply Nat.leb_le in E. lia.
      * now apply rsi_value_within.
      * reflexivity.
      * apply Nat.leb_gt in E. lia.
    + destruct dns as [| y2 dns]; [discriminate |].
      specialize (IH (y2 :: dns) (S k) _ _ r ltac:(simpl in *; lia) Ha' Hb' Hu' Hd').
      simpl length in *.
      replace (k + S (S (length ups)))%nat with (S k + S (length ups))%nat by lia.
      apply IH. exact Hr.
Qed.

End Smoothing.

(** The index the pipeline reads, for a series of any length: NaN below
    fourteen closes, a number between 0 and 100 from fourteen on. *)
Lemma rsi_of_series (close : list num) (r : num) :
  iloc_last (rsi_series 14 close) = Some r ->
  ((length close < 14)%nat -> r = NaN)
  /\ ((14 <= length close)%nat -> within 0 100 r).
Proof.
  unfold rsi_series. intros H.
  pose proof (diff_length close) as Hlen.
  assert (Hu : Forall (fun x => 0 <= x)%Q (map up_direction (diff close))).
  { apply Forall_forall. intros x Hx. apply in_map_iff in Hx as (d & <- & _).
    apply up_direction_nonneg. }
  assert (Hd : Forall (fun x => 0 <= x)%Q (map down_direction (diff close))).
  { apply Forall_forall. intros x Hx. apply in_map_iff in Hx as (d & <- & _).
    apply down_direction_nonneg. }
  destruct (diff close) as [| d0 ds]; [discriminate |].
  simpl map in *. simpl ewm_mean in H.
  inversion Hu as [| ? ? Hx Hu']; inversion Hd as [| ? ? Hy Hd']; subst.
  destruct ds as [| d1 ds].
  - simpl in H. inversion H; subst. simpl in Hlen.
    split; intros Hl; [reflexivity | lia].
  - change (iloc_last (zip_with rsi_value
              (ewm_from (1 / inject_Z (Z.of_nat 14)) 14 1 (up_direction d0)
                        (map up_direction (d1 :: ds)))
              (ewm_from (1 / inject_Z (Z.of_nat 14)) 14 1 (down_direction d0)
                        (map down_direction (d1 :: ds)))) = Some r) in H.
    apply (rsi_from_last (1 / inject_Z (Z.of_nat 14)) 14) in H; auto.
    + rewrite length_map in H. simpl length in *.
      destruct H as [H1 H2]. split; intros Hl; [apply H1 | apply H2]; lia.
    + split; unfold Qle; simpl; lia.
    + now rewrite !length_map.
Qed.

End RelativeStrength.

(** ** The claims on the indicators and the signal *)

Section Signal.

Import Samples.



(** C2. For every closing-price series of at least 20 entries the
    [sma_20] of the snapshot is the arithmetic mean of the last 20 closes
    rounded to 2 decimals; for every shorter series it is NaN, hence not
    zero. *)
Theorem sma_20_is_rounded_mean_of_last_20 (u : Upstream) (ticker : string)
    (s : Snapshot) (tr : list event) (history : DataFrame) :
  get_stock_data_try u ticker = (Ret s, tr) ->
  ticker_history u ticker "30d" = Ret history ->
  ((20 <= length (closes history))%nat ->
     num_eq (sma_20 s) (round2 (arithmetic_mean (tail 20 (closes history)))))
  /\ ((length (closes history) < 20)%nat ->
     sma_20 s = NaN /\ ~ num_eq (sma_20 s) (Fin 0)).
Proof.
  intros H Hh.
  apply get_stock_data_try_ret in H
    as (info & history' & p & sma & rsi14 & yhat & H). cbv zeta in H.
  destruct H as (_ & Hh' & _ & _ & _ & Hsma & _ & _ & _ & _ & Hs & _).
  rewrite Hh in Hh'. inversion Hh'; subst history'.
  apply sma_of_series in Hsma as [Hlong Hshort]. unfold closes. split.
  - intros Hlen. rewrite Hs, (Hlong Hlen). apply num_eq_refl.
  - intros Hlen. rewrite Hs, (Hshort Hlen). simpl. auto.
Qed.

Lemma sma_20_is_rounded_mean_of_last_20_witness :
  exists (s : Snapshot) (tr : list event),
    get_stock_data_try (market (Fin 95) closes20) "AAPL" = (Ret s, tr)
    /\ num_eq (sma_20 s) (Fin 100)
    /\ num_eq (sma_20 s) (round2 (arithmetic_mean (tail 20 closes20))).
Proof.
  eexists. eexists. split; [vm_compute; reflexivity |].
  split; [vm_compute; reflexivity |].
  eapply (sma_20_is_rounded_mean_of_last_20
           (market (Fin 95) closes20) "AAPL"%string _ _ (frame closes20)).
  - vm_compute. reflexivity.
  - reflexivity.
  - vm_compute. lia.
Defined.

(** C10. Whenever the history has fewer than 20 closes the moving average
    is NaN, both comparisons against it are false, and the recommendation
    is Hold. *)
Theorem short_history_recommends_hold (u : Upstream) (ticker : string)
    (s : Snapshot) (tr : list event) (history : DataFrame) :
  get_stock_data_try u ticker = (Ret s, tr) ->
  ticker_history u ticker "30d" = Ret history ->
  (length (closes history) < 20)%nat ->
  sma_20 s = NaN
  /\ (forall p : num, Num.ltb p NaN = false /\ Num.gtb p NaN = false)
  /\ decision s = Hold.
Proof.
  intros H Hh Hlen.
  apply get_stock_data_try_ret in H
    as (info & history' & p & sma & rsi14 & yhat & H). cbv zeta in H.
  destruct H as (_ & Hh' & _ & _ & _ & Hsma & _ & _ & _ & _ & Hs & _ & Hd & _).
  rewrite Hh in Hh'. inversion Hh'; subst history'.
  apply sma_of_series in Hsma as [_ Hshort].
  specialize (Hshort Hlen). subst sma.
  rewrite Hs, Hd. unfold decision_of. rewrite ltb_nan_r, gtb_nan_r.
  repeat split. apply ltb_nan_r.
Qed.

Lemma short_history_recommends_hold_witness :
  exists (s : Snapshot) (tr : list event),
    get_stock_data_try (market (Fin 95) closes5) "MSFT" = (Ret s, tr)
    /\ sma_20 s = NaN
    /\ (forall p : num, Num.ltb p NaN = false /\ Num.gtb p NaN = false)
    /\ decision s = Hold.
Proof.
  eexists. eexists. split; [vm_compute; reflexivity |].
  eapply (short_history_recommends_hold
            (market (Fin 95) closes5) "MSFT"%string _ _ (frame closes5)).
  - vm_compute. reflexivity.
  - reflexivity.
  - vm_compute. lia.
Defined.

(** C3, as stated, at a history of 14 closes: fewer than 15, and the
    snapshot carries a number for [rsi]. *)
Lemma rsi_reported_for_14_closes :
  (length closes14 < 15)%nat
  /\ exists (s : Snapshot) (tr : list event),
       get_stock_data_try (market (Fin 95) closes14) "AAPL" = (Ret s, tr)
       /\ is_nan (rsi s) = false.
Proof.
  split; [vm_compute; lia |].
  eexists. eexists. split; vm_compute; reflexivity.
Qed.

(** C3, amended. For every closing-price series of fewer than 14 entries
    the [rsi] of the snapshot is NaN; from 14 entries on it is a number,
    and that number lies between 0 and 100. *)
Theorem rsi_unavailable_below_14_else_bounded (u : Upstream) (ticker : string)
    (s : Snapshot) (tr : list event) (history : DataFrame) :
  get_stock_data_try u ticker = (Ret s, tr) ->
  ticker_history u ticker "30d" = Ret history ->
  ((length (closes history) < 14)%nat -> rsi s = NaN)
  /\ ((14 <= length (closes history))%nat -> within 0 100 (rsi s)).
Proof.
  intros H Hh.
  apply get_stock_data_try_ret in H
    as (info & history' & p & sma & rsi14 & yhat & H). cbv zeta in H.
  destruct H as (_ & Hh' & _ & _ & _ & _ & Hrsi & _ & _ & _ & _ & Hr & _).
  rewrite Hh in Hh'. inversion Hh'; subst history'.
  apply rsi_of_series in Hrsi as [Hshort Hlong]. unfold closes. split.
  - intros Hlen. rewrite Hr, (Hshort Hlen). reflexivity.
  - intros Hlen. rewrite Hr. apply round2_within_0_100. auto.
Qed.

Lemma rsi_unavailable_below_14_else_bounded_witness :
  (exists (s : Snapshot) (tr : list event),
     get_stock_data_try (market (Fin 95) closes14) "AAPL" = (Ret s, tr)
     /\ within 0 100 (rsi s))
  /\ (exists (s : Snapshot) (tr : list event),
     get_stock_data_try (market (Fin 95) closes5) "MSFT" = (Ret s, tr)
     /\ rsi s = NaN).
Proof.
  split.
  - eexists. eexists. split; [vm_compute; reflexivity |].
    eapply (rsi_unavailable_below_14_else_bounded
             (market (Fin 95) closes14) "AAPL"%string _ _ (frame closes14)).
    + vm_compute. reflexivity.
    + reflexivity.
    + vm_compute. lia.
  - eexists. eexists. split; [vm_compute; reflexivity |].
    eapply (rsi_unavailable_below_14_else_bounded
             (market (Fin 95) closes5) "MSFT"%string _ _ (frame closes5)).
    + vm_compute. reflexivity.
    + reflexivity.
    + vm_compute. lia.
Defined.

(** C7, as stated, at a history whose closes have a third decimal: the
    chart of the snapshot carries them as they came. *)
Lemma chart_data_is_not_rounded :
  exists (s : Snapshot) (tr : list event),
    get_stock_data_try (market (Fin 95) closes5) "MSFT" = (Ret s, tr)
    /\ ~ all_rounded s.
Proof.
  eexists. eexists. split; [vm_compute; reflexivity |].
  intros (_ & _ & _ & _ & _ & Hchart).
  rewrite Forall_forall in Hchart.
  destruct (Hchart (Fin (100123 # 1000))) as [k Hk].
  - cbn. auto 6.
  - unfold Qeq in Hk. simpl in Hk. lia.
Qed.

(** C7, amended. In every snapshot the entries [price], [sma_20], [rsi],
    [change] and [prediction] are rounded to 2 decimals (or NaN); the
    entries of [chart_data] are the last 30 closes as the market data
    source gave them. *)
Theorem scalar_entries_rounded_chart_raw (u : Upstream) (ticker : string)
    (s : Snapshot) (tr : list event) (history : DataFrame) :
  get_stock_data_try u ticker = (Ret s, tr) ->
  ticker_history u ticker "30d" = Ret history ->
  rounded2 (price s) /\ rounded2 (sma_20 s) /\ rounded2 (rsi s)
  /\ rounded2 (change s) /\ rounded2 (prediction s)
  /\ chart_data s = tail 30 (closes history).
Proof.
  intros H Hh.
  apply get_stock_data_try_ret in H
    as (info & history' & p & sma & rsi14 & yhat & H). cbv zeta in H.
  destruct H as (_ & Hh' & _ & _ & _ & _ & _ & _ & Hg & Hp & Hs & Hr & _ & Hc & Hy).
  rewrite Hh in Hh'. inversion Hh'; subst history'.
  rewrite Hp, Hs, Hr, Hy, Hc.
  repeat split; try apply round2_rounded.
  unfold change_percent in Hg.
  destruct (1 <? length (map snd (rows history)))%nat.
  - destruct (iloc_last2 (map snd (rows history))); simpl in Hg;
      inversion Hg. apply round2_rounded.
  - simpl in Hg. inversion Hg. exists 0. reflexivity.
Qed.

Lemma scalar_entries_rounded_chart_raw_witness :
  exists (s : Snapshot) (tr : list event),
    get_stock_data_try (market (Fin 95) closes5) "MSFT" = (Ret s, tr)
    /\ rounded2 (price s) /\ rounded2 (sma_20 s) /\ rounded2 (rsi s)
    /\ rounded2 (change s) /\ rounded2 (prediction s)
    /\ chart_data s = tail 30 closes5.
Proof.
  eexists. eexists. split; [vm_compute; reflexivity |].
  eapply (scalar_entries_rounded_chart_raw
           (market (Fin 95) closes5) "MSFT"%string _ _ (frame closes5)).
  - vm_compute. reflexivity.
  - reflexivity.
Defined.

End Signal.

(** ** The cache *)

Section CacheFacts.

(** One run of the function sleeps once, asks the market data source for
    the info and for the history at most once each, and fits at most one
    forecast. *)
Lemma get_stock_data_body_once (u : Upstream) (ticker : string) :
  let tr := snd (get_stock_data_body u ticker) in
  count is_sleep tr = 1%nat
  /\ (count is_fetch_info tr <= 1)%nat
  /\ (count is_fetch_history tr <= 1)%nat
  /\ (count is_fit tr <= 1)%nat.
Proof.
  unfold get_stock_data_body, get_stock_data_try, quote_and_history,
    close_last, get_close, change_percent.
  repeat run_step;
    cbn [bind emit lift ret raise or_raise fst snd orb negb app];
    cbv [count]; cbn [filter is_sleep is_fetch_info is_fetch_history is_fit
                      length app]; auto.
Qed.

Lemma cache_find_head (c : Cache) (ticker : string) (r : option Snapshot) :
  cache_find ((ticker, r) :: c) ticker = Some r.
Proof. simpl. now rewrite String.eqb_refl. Qed.

Lemma cache_find_none (c : Cache) (key : string) :
  cache_find c key = None <-> ~ In key (cached_symbols c).
Proof.
  induction c as [| [k v] tl IH]; simpl; [tauto |].
  destruct (String.eqb_spec k key) as [-> | Hne].
  - split; [discriminate | intros H; exfalso; auto].
  - rewrite IH. tauto.
Qed.

Lemma cache_remove_in (c : Cache) (key k : string) :
  In k (cached_symbols (cache_remove c key))
  <-> In k (cached_symbols c) /\ k <> key.
Proof.
  induction c as [| [k0 v] tl IH]; simpl; [tauto |].
  destruct (String.eqb_spec k0 key) as [-> | Hne]; simpl; rewrite IH.
  - split; [tauto |]. intros [[H | H] Hk]; [congruence | tauto].
  - split; [| tauto]. intros [H | H]; [subst; tauto | tauto].
Qed.

Lemma cache_remove_nodup (c : Cache) (key : string) :
  NoDup (cached_symbols c) -> NoDup (cached_symbols (cache_remove c key)).
Proof.
  induction c as [| [k0 v] tl IH]; simpl; intros H; [constructor |].
  inversion H as [| ? ? Hnin Hnd]; subst.
  destruct (String.eqb k0 key); simpl; auto.
  constructor; auto. rewrite cache_remove_in. tauto.
Qed.

Lemma cache_remove_absent (c : Cache) (key : string) :
  ~ In key (cached_symbols c) -> cache_remove c key = c.
Proof.
  induction c as [| [k0 v] tl IH]; simpl; intros H; [reflexivity |].
  destruct (String.eqb_spec k0 key) as [-> | Hne]; [tauto |].
  f_equal. apply IH. tauto.
Qed.

(** Removing the entry of a symbol that is cached once takes one entry
    away. *)
Lemma cache_remove_length (c : Cache) (key : string) :
  NoDup (cached_symbols c) -> In key (cached_symbols c) ->
  S (length (cache_remove c key)) = length c.
Proof.
  induction c as [| [k0 v] tl IH]; simpl; intros Hnd Hin; [tauto |].
  inversion Hnd as [| ? ? Hnin Hnd']; subst.
  destruct (String.eqb_spec k0 key) as [-> | Hne].
  - now rewrite cache_remove_absent.
  - simpl. f_equal. apply IH; auto. destruct Hin; [congruence | auto].
Qed.

Lemma removelast_in {A : Type} (l : list A) (x : A) :
  In x (removelast l) -> In x l.
Proof.
  induction l as [| a l IH]; simpl; [tauto |].
  destruct l as [| b tl]; [simpl; tauto |].
  intros [H | H]; [now left | right; auto].
Qed.

Lemma removelast_nodup {A : Type} (l : list A) :
  NoDup l -> NoDup (removelast l).
Proof.
  induction l as [| a l IH]; intros H; [constructor |].
  destruct l as [| b tl]; [constructor |].
  inversion H as [| ? ? Hnin Hnd]; subst.
  change (removelast (a :: b :: tl)) with (a :: removelast (b :: tl)).
  constructor; auto. intros Hin. apply Hnin. now apply removelast_in.
Qed.

Lemma removelast_map {A B : Type} (f : A -> B) (l : list A) :
  removelast (map f l) = map f (removelast l).
Proof.
  induction l as [| a l IH]; [reflexivity |].
  destruct l as [| b tl]; [reflexivity |].
  change (removelast (map f (a :: b :: tl)))
    with (f a :: removelast (map f (b :: tl))).
  now rewrite IH.
Qed.

Lemma removelast_length {A : Type} (l : list A) :
  length (removelast l) = Nat.pred (length l).
Proof.
  induction l as [| a l IH]; [reflexivity |].
  destruct l as [| b tl]; [reflexivity |].
  change (removelast (a :: b :: tl)) with (a :: removelast (b :: tl)).
  simpl length in *. now rewrite IH.
Qed.

Lemma get_stock_data_inv (u : Upstream) (c : Cache) (ticker : string)
    (seen : list string) :
  cache_inv c seen ->
  cache_inv (snd (fst (get_stock_data u c ticker))) (ticker :: seen).
Proof.
  intros (Hnd & Hin & Hle & Hall). unfold get_stock_data.
  destruct (cache_find c ticker) as [stored |] eqn:Hf.
  - assert (Hin_t : In ticker (cached_symbols c)).
    { destruct (in_dec string_dec ticker (cached_symbols c)) as [H | H]; auto.
      apply cache_find_none in H. congruence. }
    pose proof (cache_remove_length c ticker Hnd Hin_t) as Hlen.
    simpl. unfold cache_inv. simpl. repeat split.
    + constructor; [rewrite cache_remove_in; tauto |].
      now apply cache_remove_nodup.
    + intros k [<- | Hk]; [now left |].
      right. apply Hin. now apply cache_remove_in in Hk.
    + lia.
    + intros Hlt k [<- | Hk]; [now left |].
      destruct (string_dec k ticker) as [-> | Hne]; [now left |].
      right. apply cache_remove_in. split; auto. apply Hall; [lia | auto].
  - apply cache_find_none in Hf.
    destruct (get_stock_data_body u ticker) as [r tr]. simpl.
    unfold cache_make_room, cache_inv.
    destruct (length c <? maxsize)%nat eqn:Hroom.
    + apply Nat.ltb_lt in Hroom. simpl. repeat split.
      * constructor; auto.
      * intros k [<- | Hk]; [now left | right; auto].
      * lia.
      * intros Hlt k [<- | Hk]; [now left | right]. apply Hall; auto.
    + apply Nat.ltb_ge in Hroom. simpl.
      unfold cached_symbols in *. rewrite <- removelast_map.
      rewrite removelast_length. repeat split.
      * constructor; [| now apply removelast_nodup].
        intros H. apply Hf. now apply removelast_in.
      * intros k [<- | Hk]; [now left | right].
        apply Hin. now apply removelast_in.
      * unfold maxsize in *. lia.
      * unfold maxsize in *. lia.
Qed.



End CacheFacts.

(** ** The normalised symbol *)

Section Symbols.

Lemma upper_char_idem (c : ascii) : upper_char (upper_char c) = upper_char c.
Proof. destruct c as [[] [] [] [] [] [] [] []]; reflexivity. Qed.

Lemma is_space_upper_char (c : ascii) : is_space (upper_char c) = is_space c.
Proof. destruct c as [[] [] [] [] [] [] [] []]; reflexivity. Qed.

Lemma upper_idem (s : string) : upper (upper s) = upper s.
Proof.
  induction s as [| c tl IH]; simpl; [reflexivity |].
  now rewrite upper_char_idem, IH.
Qed.

Lemma upper_lstrip (s : string) : upper (lstrip s) = lstrip (upper s).
Proof.
  induction s as [| c tl IH]; simpl; [reflexivity |].
  rewrite is_space_upper_char. destruct (is_space c); auto.
Qed.

Lemma upper_rstrip (s : string) : upper (rstrip s) = rstrip (upper s).
Proof.
  induction s as [| c tl IH]; simpl; [reflexivity |].
  rewrite <- IH, is_space_upper_char.
  destruct (rstrip tl) as [| d r]; simpl; [destruct (is_space c) |]; reflexivity.
Qed.

Lemma lstrip_clean (s : string) : clean_start (lstrip s).
Proof.
  induction s as [| c tl IH]; simpl; [exact I |].
  destruct (is_space c) eqn:E; [exact IH | exact E].
Qed.

Lemma lstrip_fixed (s : string) : clean_start s -> lstrip s = s.
Proof. destruct s as [| c tl]; simpl; [reflexivity |]. now intros ->. Qed.

Lemma rstrip_clean (s : string) : clean_start s -> clean_start (rstrip s).
Proof.
  destruct s as [| c tl]; simpl; [auto |]. intros E.
  destruct (rstrip tl); [rewrite E |]; exact E.
Qed.

Lemma rstrip_idem (s : string) : rstrip (rstrip s) = rstrip s.
Proof.
  induction s as [| c tl IH]; simpl; [reflexivity |].
  destruct (rstrip tl) as [| d r] eqn:E.
  - destruct (is_space c) eqn:Ec; simpl; [reflexivity | now rewrite Ec].
  - change (rstrip (String c (String d r)))
      with (match rstrip (String d r) with
            | EmptyString =>
                if is_space c then EmptyString else String c EmptyString
            | r' => String c r'
            end).
    now rewrite IH.
Qed.

Lemma strip_idem (s : string) : strip (strip s) = strip s.
Proof.
  unfold strip.
  rewrite (lstrip_fixed (rstrip (lstrip s))).
  - apply rstrip_idem.
  - apply rstrip_clean, lstrip_clean.
Qed.

(** The symbol the handler works with is in upper case and has no white
    space around it. *)
Lemma normalize_fixed (s : string) :
  upper (normalize s) = normalize s /\ strip (normalize s) = normalize s.
Proof.
  unfold normalize. split; [| apply strip_idem].
  unfold strip. now rewrite upper_rstrip, upper_lstrip, upper_idem.
Qed.

End Symbols.

(** ** The claims on failures, the cache and the handler *)

Section Orchestration.

Import Samples.

(** C4, as stated: no function recovers symbol and cause from what a
    failed run returns, since a market that cannot be reached and a ticker
    without data both come back as the same [None]. *)
Lemma failures_are_not_tagged : ~ failures_are_tagged.
Proof.
  intros [failure_of H].
  pose proof (H unreachable "AAPL"%string
                (LibraryError "Read timed out")
                [Sleep 1; LogInfo "Fetching data for ticker: AAPL";
                 FetchInfo "AAPL"] eq_refl) as H1.
  pose proof (H delisted "ZZZZ123"%string
                (ValueError "No data available for ticker: ZZZZ123")
                [Sleep 1; LogInfo "Fetching data for ticker: ZZZZ123";
                 FetchInfo "ZZZZ123";
                 LogWarning "No 'regularMarketPrice' in info for ZZZZ123, trying history";
                 FetchHistory "ZZZZ123" "30d"] eq_refl) as H2.
  change (fst (get_stock_data_body unreachable "AAPL")) with (@None Snapshot) in H1.
  change (fst (get_stock_data_body delisted "ZZZZ123")) with (@None Snapshot) in H2.
  rewrite H1 in H2. discriminate.
Qed.

(** C4, amended. For every symbol the function returns, a snapshot or
    [None]: whatever the block raises is caught, the symbol and the
    message go to the log as the last event, and the caller gets [None],
    which carries neither symbol nor kind nor message.  A failure of the
    info request, of the history request or of the forecast, and an empty
    history, all end that way. *)
Theorem failures_are_caught_as_none (u : Upstream) (ticker : string) :
  match get_stock_data_try u ticker with
  | (Ret s, tr) => get_stock_data_body u ticker = (Some s, tr)
  | (Raise e, tr) =>
      get_stock_data_body u ticker
      = (None, tr ++ [LogError ("Error fetching data for " ++ ticker ++ ": "
                                ++ exn_str e)%string])
  end
  /\ (forall e : exn, ticker_info u ticker = Raise e ->
        fst (get_stock_data_body u ticker) = None)
  /\ (forall e : exn, ticker_history u ticker "30d" = Raise e ->
        fst (get_stock_data_body u ticker) = None)
  /\ (forall history : DataFrame,
        ticker_history u ticker "30d" = Ret history -> rows history = [] ->
        fst (get_stock_data_body u ticker) = None)
  /\ (forall e : exn, (forall d n, prophet_yhat u d n = Raise e) ->
        fst (get_stock_data_body u ticker) = None).
Proof.
  split; [unfold get_stock_data_body;
          destruct (get_stock_data_try u ticker) as [[s | e] tr]; reflexivity |].
  unfold get_stock_data_body, get_stock_data_try, quote_and_history,
    close_last, get_close, change_percent.
  repeat split.
  - intros e ->. reflexivity.
  - intros e ->. repeat run_step; reflexivity.
  - intros history -> Hrows.
    assert (He : df_empty history = true)
      by (unfold df_empty; now rewrite Hrows).
    repeat (run_cbn; rewrite ?He; run_split);
      run_cbn; rewrite ?He; reflexivity.
  - intros e He.
    repeat (run_cbn; rewrite ?He; run_split);
      run_cbn; rewrite ?He; reflexivity.
Qed.

Lemma failures_are_caught_as_none_witness :
  fst (get_stock_data_body unreachable "AAPL") = None.
Proof.
  apply (proj1 (proj2 (failures_are_caught_as_none unreachable "AAPL"%string))
           (LibraryError "Read timed out")).
  reflexivity.
Defined.



(** C6. Of two calls in a row for one symbol the second is a cache hit:
    it returns what the first returned and does nothing else, whatever
    the market has become, so that the two calls together sleep, ask for
    the info, ask for the history and fit a forecast at most once. *)
Theorem second_call_is_cache_hit (u1 u2 : Upstream) (c : Cache)
    (ticker : string) :
  let '(r1, c1, tr1) := get_stock_data u1 c ticker in
  let '(r2, c2, tr2) := get_stock_data u2 c1 ticker in
  r2 = r1 /\ tr2 = []
  /\ (count is_sleep (tr1 ++ tr2) <= 1)%nat
  /\ (count is_fetch_info (tr1 ++ tr2) <= 1)%nat
  /\ (count is_fetch_history (tr1 ++ tr2) <= 1)%nat
  /\ (count is_fit (tr1 ++ tr2) <= 1)%nat.
Proof.
  unfold get_stock_data at 1.
  destruct (cache_find c ticker) as [stored |].
  - unfold get_stock_data. rewrite cache_find_head. simpl. auto 10.
  - pose proof (get_stock_data_body_once u1 ticker) as Hon.
    destruct (get_stock_data_body u1 ticker) as [r tr]. simpl in Hon.
    unfold get_stock_data. rewrite cache_find_head. rewrite app_nil_r.
    intuition lia.
Qed.







End Orchestration.

(** * Further properties of the pipeline *)

Section Runs.

Import Samples Scenarios.

Lemma emit_ret_inv (ev : event) (a : unit) (tr : list event) :
  emit ev = (Ret a, tr) -> tr = [ev].
Proof. unfold emit. intros H. now inversion H. Qed.

Lemma quote_and_history_trace (u : Upstream) (ticker : string) (info : Info)
    (history : DataFrame) (p : num) (tr : list event) :
  quote_and_history u ticker info = (Ret (history, p), tr) ->
  tr = price_warning ticker info ++ [FetchHistory ticker "30d"].
Proof.
  unfold quote_and_history, price_warning, close_last.
  destruct (regularMarketPrice info) as [mp |]; intros H.
  - apply bind_ret_inv in H as (h & tr1 & tr2 & H1 & H2 & ->).
    apply lift_ret_inv in H1 as [H1 ->].
    apply bind_ret_inv in H2 as (x & tr3 & tr4 & H2 & H3 & ->).
    inversion H3; subst.
    apply bind_ret_inv in H2 as (close & tr7 & tr8 & H5 & H6 & ->).
    apply get_close_ret_inv in H5 as (_ & -> & ->).
    apply or_raise_ret_inv in H6 as [H6 ->]. reflexivity.
  - apply bind_ret_inv in H as ([] & tr1 & tr2 & H1 & H2 & ->).
    apply emit_ret_inv in H1 as ->.
    apply bind_ret_inv in H2 as (h & tr3 & tr4 & H2 & H3 & ->).
    apply lift_ret_inv in H2 as [H2 ->].
    destruct (df_empty h || negb (has_close h)); [discriminate |].
    apply bind_ret_inv in H3 as (x & tr5 & tr6 & H3 & H4 & ->).
    inversion H4; subst.
    apply bind_ret_inv in H3 as (close & tr7 & tr8 & H5 & H6 & ->).
    apply get_close_ret_inv in H5 as (_ & -> & ->).
    apply or_raise_ret_inv in H6 as [H6 ->]. reflexivity.
Qed.

Lemma change_percent_ret (p : num) (close : list num) (chg : num)
    (tr : list event) :
  change_percent p close = (Ret chg, tr) -> tr = [].
Proof.
  unfold change_percent. destruct (1 <? length close)%nat.
  - intros H. apply bind_ret_inv in H as (prev & tr1 & tr2 & H1 & H2 & ->).
    apply or_raise_ret_inv in H1 as [_ ->]. now inversion H2.
  - intros H. now inversion H.
Qed.

(** A successful run in full: what it read, the record it built and the
    events it left. *)
Lemma get_stock_data_try_run (u : Upstream) (ticker : string) (s : Snapshot)
    (tr : list event) :
  get_stock_data_try u ticker = (Ret s, tr) ->
  exists (info : Info) (history : DataFrame) (p sma rsi14 yhat chg : num),
    ticker_info u ticker = Ret info
    /\ ticker_history u ticker "30d" = Ret history
    /\ has_close history = true
    /\ rows history <> []
    /\ quote_of info (closes history) = Some p
    /\ iloc_last (rolling_mean 20 (closes history)) = Some sma
    /\ iloc_last (rsi_series 14 (closes history)) = Some rsi14
    /\ prophet_yhat u (combine (df_index history) (closes history)) 7 = Ret yhat
    /\ fst (change_percent p (closes history)) = Ret chg
    /\ s = {| name := get_or (longName info) ticker;
              price := round2 p;
              sma_20 := round2 sma;
              rsi := round2 rsi14;
              decision := decision_of p sma;
              volume := get_or (info_volume info) 0;
              change := chg;
              chart_data := tail 30 (closes history);
              prediction := round2 yhat;
              eco_score := get_or (dict_get eco_scores ticker)
                                  {| score := 50; carbon := 5000 |} |}
    /\ tr = [Sleep 1; LogInfo ("Fetching data for ticker: " ++ ticker)%string;
             FetchInfo ticker]
            ++ price_warning ticker info
            ++ [FetchHistory ticker "30d";
                FitForecast (length (closes history)) 7;
                LogInfo ("Successfully fetched data for ticker: "
                         ++ ticker)%string].
Proof.
  unfold get_stock_data_try, closes. intros H.
  apply bind_ret_inv in H as ([] & tr1 & tr2 & H1 & H & ->).
  apply emit_ret_inv in H1 as ->.
  apply bind_ret_inv in H as ([] & tr3 & tr4 & H1 & H & ->).
  apply emit_ret_inv in H1 as ->.
  apply bind_ret_inv in H as (info & tr5 & tr6 & Hi & H & ->).
  apply lift_ret_inv in Hi as [Hi ->].
  apply bind_ret_inv in H as ([history p] & tr7 & tr8 & Hq & H & ->).
  pose proof (quote_and_history_trace _ _ _ _ _ _ Hq) as ->.
  apply quote_and_history_ret in Hq as (Hh & Hp & _).
  destruct (df_empty history) eqn:He; [discriminate |].
  destruct (has_close history) eqn:Hc; [| discriminate].
  cbn [orb negb] in H.
  apply bind_ret_inv in H as (close & tr9 & tr10 & Hcl & H & ->).
  apply get_close_ret_inv in Hcl as (_ & -> & ->).
  apply bind_ret_inv in H as (sma & tr11 & tr12 & Hs & H & ->).
  apply or_raise_ret_inv in Hs as [Hs ->].
  apply bind_ret_inv in H as (rsi14 & tr13 & tr14 & Hr & H & ->).
  apply or_raise_ret_inv in Hr as [Hr ->].
  apply bind_ret_inv in H as (yhat & tr15 & tr16 & Hy & H & ->).
  apply lift_ret_inv in Hy as [Hy ->].
  apply bind_ret_inv in H as ([] & tr17 & tr18 & H1 & H & ->).
  apply emit_ret_inv in H1 as ->.
  apply bind_ret_inv in H as (chg & tr19 & tr20 & Hg & H & ->).
  pose proof (change_percent_ret _ _ _ _ Hg) as ->.
  inversion H; subst; clear H.
  exists info, history, p, sma, rsi14, yhat, chg.
  rewrite Hg. cbn [fst].
  repeat split; auto.
  - unfold df_empty in He. destruct (rows history); [discriminate | congruence].
  - cbn [app]. rewrite <- !app_assoc. reflexivity.
Qed.

Lemma iloc_last2_length {A : Type} (xs : list A) (x : A) :
  iloc_last2 xs = Some x -> (1 <? length xs)%nat = true.
Proof.
  destruct xs as [| a [| b tl]]; simpl; try discriminate. reflexivity.
Qed.

(** X1. The [change] of a snapshot is taken against the close before the
    last one, [iloc[-2]]: it is the rounded percentage by which the quote
    differs from that close, and [0] when the history has a single
    close. *)
Theorem change_is_against_previous_close (u : Upstream) (ticker : string)
    (s : Snapshot) (tr : list event) (info : Info) (history : DataFrame)
    (p : num) :
  get_stock_data_try u ticker = (Ret s, tr) ->
  ticker_info u ticker = Ret info ->
  ticker_history u ticker "30d" = Ret history ->
  quote_of info (closes history) = Some p ->
  (length (closes history) = 1%nat -> change s = Fin 0)
  /\ (forall prev : num,
        iloc_last2 (closes history) = Some prev ->
        change s
        = round2 (Num.mul (Num.div (Num.sub p prev) prev) (Fin 100))).
Proof.
  intros H Hi Hh Hp.
  apply get_stock_data_try_run in H
    as (info' & history' & p' & sma & rsi14 & yhat & chg
        & Hi' & Hh' & _ & _ & Hp' & _ & _ & _ & Hg & -> & _).
  rewrite Hi in Hi'. inversion Hi'; subst info'.
  rewrite Hh in Hh'. inversion Hh'; subst history'.
  rewrite Hp in Hp'. inversion Hp'; subst p'.
  cbn [change]. unfold change_percent in Hg. split.
  - intros Hlen. rewrite Hlen in Hg. simpl in Hg. now inversion Hg.
  - intros prev Hprev. rewrite (iloc_last2_length _ _ Hprev), Hprev in Hg.
    simpl in Hg. now inversion Hg.
Qed.

Lemma change_is_against_previous_close_witness :
  exists (s : Snapshot) (tr : list event),
    get_stock_data_try (market (Fin 95) closes20) "AAPL" = (Ret s, tr)
    /\ change s
       = round2 (Num.mul (Num.div (Num.sub (Fin 95) (Fin 102)) (Fin 102))
                         (Fin 100)).
Proof.
  eexists. eexists. split; [vm_compute; reflexivity |].
  eapply (change_is_against_previous_close
            (market (Fin 95) closes20) "AAPL"%string _ _ _ (frame closes20)).
  - vm_compute. reflexivity.
  - reflexivity.
  - reflexivity.
  - reflexivity.
  - reflexivity.
Defined.

(** X2. The price of a snapshot is the rounded [regularMarketPrice] when
    [info] carries one, whatever the history says; only when [info] has
    none is it the rounded last close, and then the run has logged the
    warning. *)
Theorem price_is_market_price_else_last_close (u : Upstream)
    (ticker : string) (s : Snapshot) (tr : list event) (info : Info)
    (history : DataFrame) :
  get_stock_data_try u ticker = (Ret s, tr) ->
  ticker_info u ticker = Ret info ->
  ticker_history u ticker "30d" = Ret history ->
  (forall market_price : num,
      regularMarketPrice info = Some market_price ->
      price s = round2 market_price
      /\ forall msg : string, ~ In (LogWarning msg) tr)
  /\ (regularMarketPrice info = None ->
      exists last : num,
        iloc_last (closes history) = Some last
        /\ price s = round2 last
        /\ In (LogWarning ("No 'regularMarketPrice' in info for " ++ ticker
                           ++ ", trying history")%string) tr).
Proof.
  intros H Hi Hh.
  apply get_stock_data_try_run in H
    as (info' & history' & p & sma & rsi14 & yhat & chg
        & Hi' & Hh' & _ & _ & Hp & _ & _ & _ & _ & -> & ->).
  rewrite Hi in Hi'. inversion Hi'; subst info'.
  rewrite Hh in Hh'. inversion Hh'; subst history'.
  unfold quote_of in Hp. unfold price_warning. cbn [price]. split.
  - intros mp Hmp. rewrite Hmp in *. inversion Hp; subst. split; auto.
    intros msg Hin. simpl in Hin.
    repeat (destruct Hin as [Hin | Hin]; [discriminate |]). exact Hin.
  - intros Hnone. rewrite Hnone in *. exists p. repeat split; auto.
    simpl. auto 6.
Qed.

Lemma price_is_market_price_else_last_close_witness :
  (exists (s : Snapshot) (tr : list event),
     get_stock_data_try (market (Fin 95) closes20) "AAPL" = (Ret s, tr)
     /\ price s = round2 (Fin 95))
  /\ (exists (s : Snapshot) (tr : list event),
     get_stock_data_try (quiet_market closes20) "AAPL" = (Ret s, tr)
     /\ exists last : num,
          iloc_last closes20 = Some last /\ price s = round2 last
          /\ In (LogWarning "No 'regularMarketPrice' in info for AAPL, trying history") tr).
Proof.
  split.
  - destruct (get_stock_data_try (market (Fin 95) closes20) "AAPL")
      as [[s | e] tr] eqn:Hrun; [| vm_compute in Hrun; discriminate].
    exists s, tr. split; [reflexivity |].
    exact (proj1 (proj1 (price_is_market_price_else_last_close
                           (market (Fin 95) closes20) "AAPL"%string s tr _
                           (frame closes20) Hrun eq_refl eq_refl)
                        (Fin 95) eq_refl)).
  - destruct (get_stock_data_try (quiet_market closes20) "AAPL")
      as [[s | e] tr] eqn:Hrun; [| vm_compute in Hrun; discriminate].
    exists s, tr. split; [reflexivity |].
    exact (proj2 (price_is_market_price_else_last_close
                    (quiet_market closes20) "AAPL"%string s tr _
                    (frame closes20) Hrun eq_refl eq_refl) eq_refl).
Defined.

(** X3. Entries that the market data source leaves out take their
    defaults: without [longName] the name is the ticker itself, without
    [volume] the volume is 0, and a ticker outside the eco table gets the
    score 50 with 5000 kg of carbon, while the three tickers of the table
    get theirs. *)
Theorem missing_entries_take_defaults (u : Upstream) (ticker : string)
    (s : Snapshot) (tr : list event) (info : Info) :
  get_stock_data_try u ticker = (Ret s, tr) ->
  ticker_info u ticker = Ret info ->
  (longName info = None -> name s = ticker)
  /\ (forall n : string, longName info = Some n -> name s = n)
  /\ (info_volume info = None -> volume s = 0)
  /\ (forall v : Z, info_volume info = Some v -> volume s = v)
  /\ (ticker <> "AAPL"%string -> ticker <> "MSFT"%string ->
      ticker <> "TSLA"%string ->
      eco_score s = {| score := 50; carbon := 5000 |})
  /\ (ticker = "AAPL"%string -> eco_score s = {| score := 75; carbon := 4500 |})
  /\ (ticker = "MSFT"%string -> eco_score s = {| score := 80; carbon := 3800 |})
  /\ (ticker = "TSLA"%string -> eco_score s = {| score := 95; carbon := 2000 |}).
Proof.
  intros H Hi.
  apply get_stock_data_try_run in H
    as (info' & history' & p & sma & rsi14 & yhat & chg
        & Hi' & _ & _ & _ & _ & _ & _ & _ & _ & -> & _).
  rewrite Hi in Hi'. inversion Hi'; subst info'.
  cbn [name volume eco_score].
  repeat split.
  - now intros ->.
  - now intros n ->.
  - now intros ->.
  - now intros v ->.
  - intros H1 H2 H3. unfold eco_scores. cbn [dict_get].
    apply String.eqb_neq in H1, H2, H3.
    rewrite String.eqb_sym in H1. rewrite String.eqb_sym in H2.
    rewrite String.eqb_sym in H3.
    now rewrite H1, H2, H3.
  - now intros ->.
  - now intros ->.
  - now intros ->.
Qed.

Lemma missing_entries_take_defaults_witness :
  exists (s : Snapshot) (tr : list event),
    get_stock_data_try (quiet_market closes20) "NVDA" = (Ret s, tr)
    /\ name s = "NVDA"%string /\ volume s = 0
    /\ eco_score s = {| score := 50; carbon := 5000 |}.
Proof.
  destruct (get_stock_data_try (quiet_market closes20) "NVDA")
    as [[s | e] tr] eqn:Hrun; [| vm_compute in Hrun; discriminate].
  exists s, tr. split; [reflexivity |].
  destruct (missing_entries_take_defaults
              (quiet_market closes20) "NVDA"%string s tr _ Hrun eq_refl)
    as (H1 & _ & H2 & _ & H3 & _).
  split; [exact (H1 eq_refl) |]. split; [exact (H2 eq_refl) |].
  apply H3; discriminate.
Defined.

Lemma tail_suffix {A : Type} (n : nat) (xs : list A) :
  firstn (length xs - n) xs ++ tail n xs = xs.
Proof. unfold tail. apply firstn_skipn. Qed.

(** X4. The chart of a snapshot is the end of the history, in its order:
    the closes are some older closes followed by the chart, which has 30
    entries, or all the closes when there are fewer, and never none. *)
Theorem chart_data_is_recent_suffix (u : Upstream) (ticker : string)
    (s : Snapshot) (tr : list event) (history : DataFrame) :
  get_stock_data_try u ticker = (Ret s, tr) ->
  ticker_history u ticker "30d" = Ret history ->
  (exists older : list num, closes history = older ++ chart_data s)
  /\ length (chart_data s) = Nat.min 30 (length (closes history))
  /\ (0 < length (chart_data s))%nat.
Proof.
  intros H Hh.
  apply get_stock_data_try_run in H
    as (info' & history' & p & sma & rsi14 & yhat & chg
        & _ & Hh' & _ & Hne & _ & _ & _ & _ & _ & -> & _).
  rewrite Hh in Hh'. inversion Hh'; subst history'.
  cbn [chart_data]. split; [| split].
  - eexists. symmetry. apply tail_suffix.
  - apply tail_length.
  - rewrite tail_length. unfold closes. rewrite length_map.
    destruct (rows history); [congruence | simpl; lia].
Qed.

Lemma chart_data_is_recent_suffix_witness :
  exists (s : Snapshot) (tr : list event),
    get_stock_data_try (market (Fin 95) closes5) "MSFT" = (Ret s, tr)
    /\ length (chart_data s) = 5%nat.
Proof.
  destruct (get_stock_data_try (market (Fin 95) closes5) "MSFT")
    as [[s | e] tr] eqn:Hrun; [| vm_compute in Hrun; discriminate].
  exists s, tr. split; [reflexivity |].
  exact (proj1 (proj2 (chart_data_is_recent_suffix
                         (market (Fin 95) closes5) "MSFT"%string s tr
                         (frame closes5) Hrun eq_refl))).
Defined.

(** X5. A successful run does these things and no others, in this order:
    it sleeps one second, logs, asks for the info, logs the warning when
    the info has no market price, asks for 30 days of history, fits one
    forecast over all the closes for 7 periods, and logs the success; the
    function returns the snapshot with that trace. *)
Theorem successful_run_trace (u : Upstream) (ticker : string)
    (s : Snapshot) (tr : list event) (info : Info) (history : DataFrame) :
  get_stock_data_try u ticker = (Ret s, tr) ->
  ticker_info u ticker = Ret info ->
  ticker_history u ticker "30d" = Ret history ->
  get_stock_data_body u ticker
  = (Some s,
     [Sleep 1; LogInfo ("Fetching data for ticker: " ++ ticker)%string;
      FetchInfo ticker]
     ++ price_warning ticker info
     ++ [FetchHistory ticker "30d";
         FitForecast (length (closes history)) 7;
         LogInfo ("Successfully fetched data for ticker: " ++ ticker)%string]).
Proof.
  intros H Hi Hh. unfold get_stock_data_body. rewrite H.
  apply get_stock_data_try_run in H
    as (info' & history' & p & sma & rsi14 & yhat & chg
        & Hi' & Hh' & _ & _ & _ & _ & _ & _ & _ & _ & ->).
  rewrite Hi in Hi'. inversion Hi'; subst info'.
  rewrite Hh in Hh'. inversion Hh'; subst history'.
  reflexivity.
Qed.

Lemma successful_run_trace_witness :
  exists s : Snapshot,
    get_stock_data_body (quiet_market closes5) "MSFT"
    = (Some s,
       [Sleep 1; LogInfo "Fetching data for ticker: MSFT"; FetchInfo "MSFT";
        LogWarning "No 'regularMarketPrice' in info for MSFT, trying history";
        FetchHistory "MSFT" "30d"; FitForecast 5 7;
        LogInfo "Successfully fetched data for ticker: MSFT"]).
Proof.
  destruct (get_stock_data_try (quiet_market closes5) "MSFT")
    as [[s | e] tr] eqn:Hrun; [| vm_compute in Hrun; discriminate].
  exists s.
  exact (successful_run_trace (quiet_market closes5) "MSFT"%string s tr _
           (frame closes5) Hrun eq_refl eq_refl).
Defined.

End Runs.

Section Stages.

Import Samples Scenarios.

Lemma df_empty_false (df : DataFrame) : df_empty df = false -> rows df <> [].
Proof. unfold df_empty. destruct (rows df); [discriminate | congruence]. Qed.

(** X6. The run asks for the history only after the info request has
    answered, and fits a forecast only after both requests have answered
    with a history that is not empty and has a [Close] column; the fit is
    then over all its closes, for 7 periods.  A failed or empty answer
    therefore costs no request or fit after it. *)
Theorem requests_and_fit_follow_success (u : Upstream) (ticker : string) :
  let tr := snd (get_stock_data_body u ticker) in
  (forall t p : string,
      In (FetchHistory t p) tr ->
      t = ticker /\ p = "30d"%string
      /\ exists info : Info, ticker_info u ticker = Ret info)
  /\ (forall n k : nat,
      In (FitForecast n k) tr ->
      k = 7%nat
      /\ exists (info : Info) (history : DataFrame),
           ticker_info u ticker = Ret info
           /\ ticker_history u ticker "30d" = Ret history
           /\ rows history <> [] /\ has_close history = true
           /\ n = length (closes history)).
Proof.
  unfold get_stock_data_body, get_stock_data_try, quote_and_history,
    close_last, get_close, change_percent, closes.
  repeat (run_cbn; run_split_eq);
    cbn [bind emit lift ret raise or_raise fst snd orb negb app];
    (split; [intros req_t req_p H | intros fit_n fit_k H]); in_trace H;
    inversion H; subst;
    repeat split; eauto 10 using df_empty_false.
Qed.

Lemma requests_and_fit_follow_success_witness :
  exists info : Info,
    ticker_info (market (Fin 95) closes5) "MSFT" = Ret info.
Proof.
  apply (proj1 (requests_and_fit_follow_success
                  (market (Fin 95) closes5) "MSFT"%string)
           "MSFT"%string "30d"%string).
  vm_compute. auto 6.
Defined.

End Stages.

(** * Further properties of the signal *)

Section FullWindow.

Import Samples Scenarios.

(** X19. A snapshot recommends Buy or Sell only on a full window: the
    history then has 20 closes or more, the quote and the mean of the
    last 20 closes are both numbers, and the recommendation is Buy
    exactly when the quote is below that mean and Sell exactly when it is
    above. *)
Theorem buy_and_sell_need_full_window (u : Upstream) (ticker : string)
    (s : Snapshot) (tr : list event) (info : Info) (history : DataFrame) :
  get_stock_data_try u ticker = (Ret s, tr) ->
  ticker_info u ticker = Ret info ->
  ticker_history u ticker "30d" = Ret history ->
  decision s <> Hold ->
  (20 <= length (closes history))%nat
  /\ exists q m : Q,
       quote_of info (closes history) = Some (Fin q)
       /\ arithmetic_mean (tail 20 (closes history)) = Fin m
       /\ (decision s = Buy <-> (q < m)%Q)
       /\ (decision s = Sell <-> (m < q)%Q).
Proof.
  intros H Hi Hh Hd.
  apply get_stock_data_try_run in H
    as (info' & history' & p & sma & rsi14 & yhat & chg
        & Hi' & Hh' & _ & _ & Hp & Hsma & _ & _ & _ & -> & _).
  rewrite Hi in Hi'. inversion Hi'; subst info'.
  rewrite Hh in Hh'. inversion Hh'; subst history'.
  cbn [decision] in *.
  apply sma_of_series in Hsma as [Hlong Hshort].
  destruct (Nat.lt_ge_cases (length (closes history)) 20) as [Hlt | Hge].
  - exfalso. apply Hd. rewrite (Hshort Hlt). unfold decision_of.
    now rewrite ltb_nan_r, gtb_nan_r.
  - split; [exact Hge |]. rewrite <- (Hlong Hge).
    destruct p as [| q];
      [exfalso; apply Hd; unfold decision_of, Num.gtb;
       rewrite ltb_nan_r; reflexivity |].
    destruct sma as [| m];
      [exfalso; apply Hd; unfold decision_of;
       now rewrite ltb_nan_r, gtb_nan_r |].
    exists q, m. split; [exact Hp |]. split; [reflexivity |].
    unfold decision_of, Num.gtb.
    destruct (Num.ltb (Fin q) (Fin m)) eqn:E1.
    + apply ltb_lt in E1. split; split; auto; try discriminate.
      intros H. lra.
    + destruct (Num.ltb (Fin m) (Fin q)) eqn:E2.
      * apply ltb_lt in E2. split; split; auto; try discriminate.
        intros H. lra.
      * exfalso. apply Hd. unfold decision_of, Num.gtb.
        now rewrite E1, E2.
Qed.

Lemma buy_and_sell_need_full_window_witness :
  exists (s : Snapshot) (tr : list event),
    get_stock_data_try (market (Fin 95) closes20) "AAPL" = (Ret s, tr)
    /\ (20 <= length closes20)%nat.
Proof.
  destruct (get_stock_data_try (market (Fin 95) closes20) "AAPL")
    as [[s | e] tr] eqn:Hrun; [| vm_compute in Hrun; discriminate].
  exists s, tr. split; [reflexivity |].
  refine (proj1 (buy_and_sell_need_full_window
                   (market (Fin 95) closes20) "AAPL"%string s tr _
                   (frame closes20) Hrun eq_refl eq_refl _)).
  vm_compute in Hrun. inversion Hrun. discriminate.
Defined.

End FullWindow.

(** * Further properties of the index *)

Section IndexExtremes.

Import Samples Scenarios.

Lemma round_half_even_comp (q q' : Q) :
  (q == q')%Q -> round_half_even q = round_half_even q'.
Proof.
  intros H. unfold round_half_even.
  rewrite (Qfloor_comp _ _ H).
  assert (Hc : (q - inject_Z (Qfloor q') ?= 1 # 2)%Q
               = (q' - inject_Z (Qfloor q') ?= 1 # 2)%Q)
    by (now rewrite H).
  now rewrite Hc.
Qed.

Lemma round2_num_eq (q : Q) (z : Z) :
  (q == inject_Z z)%Q -> num_eq (round2 (Fin q)) (Fin (inject_Z z)).
Proof.
  intros H. simpl.
  rewrite (round_half_even_comp (q * 100) (inject_Z (z * 100))).
  - rewrite round_half_even_Z. unfold Qeq. simpl. lia.
  - rewrite H. unfold Qeq. simpl. lia.
Qed.

Section Smoothed.

Variable alpha : Q.
Variable m : nat.
Hypothesis alpha_open : (0 < alpha < 1)%Q.

(** Without losses the smoothed losses stay at zero, and the index is
    100 as soon as it is a number. *)
Lemma rsi_without_losses :
  forall (ups dns : list Q) (k : nat) (a b : Q) (r : num),
    length ups = length dns ->
    (b == 0)%Q -> Forall (fun y => y == 0)%Q dns ->
    (m <= k + length ups)%nat ->
    iloc_last (zip_with rsi_value (ewm_from alpha m k a ups)
                                  (ewm_from alpha m k b dns)) = Some r ->
    r = Fin 100.
Proof.
  induction ups as [| x ups IH]; intros dns k a b r Hlen Hb Hd Hm Hr.
  - discriminate.
  - destruct dns as [| y dns]; [discriminate |].
    inversion Hd as [| ? ? Hy Hd']; subst.
    assert (Hb' : ((1 - alpha) * b + alpha * y == 0)%Q)
      by (rewrite Hb, Hy; ring).
    destruct ups as [| x2 ups].
    + destruct dns; [| discriminate]. simpl in Hr, Hm.
      assert (E : (m <=? S k)%nat = true) by (apply Nat.leb_le; lia).
      rewrite E in Hr. inversion Hr; subst.
      unfold rsi_value. cbn [Num.eqb].
      apply Qeq_bool_iff in Hb'. now rewrite Hb'.
    + destruct dns as [| y2 dns]; [discriminate |].
      eapply (IH (y2 :: dns) (S k));
        [ simpl in *; lia | exact Hb' | exact Hd' | simpl length in *; lia
        | exact Hr ].
Qed.

(** Without gains, and with a loss behind or ahead, the smoothed losses
    end above zero and the smoothed gains at zero: the index is 0. *)
Lemma rsi_without_gains :
  forall (ups dns : list Q) (k : nat) (a b : Q) (r : num),
    length ups = length dns ->
    (a == 0)%Q -> Forall (fun x => x == 0)%Q ups ->
    (0 <= b)%Q -> Forall (fun y => 0 <= y)%Q dns ->
    (0 < b)%Q \/ Exists (fun y => 0 < y)%Q dns ->
    (m <= k + length ups)%nat ->
    iloc_last (zip_with rsi_value (ewm_from alpha m k a ups)
                                  (ewm_from alpha m k b dns)) = Some r ->
    exists q : Q, r = Fin q /\ (q == 0)%Q.
Proof.
  induction ups as [| x ups IH]; intros dns k a b r Hlen Ha Hu Hb Hd Hpos Hm Hr.
  - discriminate.
  - destruct dns as [| y dns]; [discriminate |].
    inversion Hu as [| ? ? Hx Hu']; inversion Hd as [| ? ? Hy Hd']; subst.
    assert (Ha' : ((1 - alpha) * a + alpha * x == 0)%Q)
      by (rewrite Ha, Hx; ring).
    assert (Hb' : (0 <= (1 - alpha) * b + alpha * y)%Q) by nra.
    destruct ups as [| x2 ups].
    + destruct dns; [| discriminate]. simpl in Hr, Hm.
      assert (E : (m <=? S k)%nat = true) by (apply Nat.leb_le; lia).
      rewrite E in Hr. inversion Hr; subst. clear Hr.
      assert (Hbpos : (0 < (1 - alpha) * b + alpha * y)%Q).
      { destruct Hpos as [Hp | Hp]; [nra |].
        inversion Hp as [? ? Hy0 | ? ? Hn]; subst; [nra | inversion Hn]. }
      set (a' := ((1 - alpha) * a + alpha * x)%Q) in *.
      set (b' := ((1 - alpha) * b + alpha * y)%Q) in *.
      unfold rsi_value. cbn [Num.eqb].
      assert (E0 : Qeq_bool b' 0 = false).
      { destruct (Qeq_bool b' 0) eqn:Eb; [| reflexivity].
        apply Qeq_bool_eq in Eb. lra. }
      rewrite E0. unfold Num.div at 2. rewrite E0.
      assert (Hq : (a' / b' == 0)%Q) by (rewrite Ha'; field; lra).
      unfold Num.add, Num.div.
      assert (E1 : Qeq_bool (1 + a' / b') 0 = false).
      { destruct (Qeq_bool (1 + a' / b') 0) eqn:Eb; [| reflexivity].
        apply Qeq_bool_eq in Eb. lra. }
      rewrite E1. unfold Num.sub. eexists. split; [reflexivity |].
      rewrite Hq. reflexivity.
    + destruct dns as [| y2 dns]; [discriminate |].
      eapply (IH (y2 :: dns) (S k));
        [ simpl in *; lia | exact Ha' | exact Hu' | exact Hb' | exact Hd'
        | | simpl length in *; lia | exact Hr ].
      destruct Hpos as [Hp | Hp]; [left; nra |].
      inversion Hp as [? ? Hy0 | ? ? Hn]; subst; [left; nra | now right].
Qed.

End Smoothed.

Lemma alpha14_open : (0 < 1 / inject_Z (Z.of_nat 14) < 1)%Q.
Proof. split; unfold Qlt; simpl; lia. Qed.

Lemma down_direction_zero (d : num) :
  Num.ltb d (Fin 0) = false -> (down_direction d == 0)%Q.
Proof.
  destruct d as [| q]; unfold down_direction; [reflexivity |].
  now intros ->.
Qed.

Lemma up_direction_zero (d : num) :
  Num.gtb d (Fin 0) = false -> (up_direction d == 0)%Q.
Proof.
  destruct d as [| q]; unfold up_direction; [reflexivity |].
  now intros ->.
Qed.

Lemma down_direction_pos (d : num) :
  Num.ltb d (Fin 0) = true -> (0 < down_direction d)%Q.
Proof.
  destruct d as [| q]; [discriminate |]. intros H.
  unfold down_direction. rewrite H. apply ltb_lt in H. lra.
Qed.

(** The index read off a series of 14 closes or more, at its extremes. *)
Lemma rsi_extremes (close : list num) (r : num) :
  iloc_last (rsi_series 14 close) = Some r ->
  (14 <= length close)%nat ->
  ((forall d, In d (diff close) -> Num.ltb d (Fin 0) = false) ->
   r = Fin 100)
  /\ ((forall d, In d (diff close) -> Num.gtb d (Fin 0) = false) ->
      (exists d, In d (diff close) /\ Num.ltb d (Fin 0) = true) ->
      exists q : Q, r = Fin q /\ (q == 0)%Q).
Proof.
  unfold rsi_series. intros H Hlen.
  pose proof (diff_length close) as Hdl.
  destruct (diff close) as [| d0 ds] eqn:Hdiff; [discriminate |].
  destruct ds as [| d1 ds]; [simpl in Hdl; lia |].
  change (iloc_last (zip_with rsi_value
            (ewm_from (1 / inject_Z (Z.of_nat 14)) 14 1 (up_direction d0)
                      (map up_direction (d1 :: ds)))
            (ewm_from (1 / inject_Z (Z.of_nat 14)) 14 1 (down_direction d0)
                      (map down_direction (d1 :: ds)))) = Some r) in H.
  assert (Hk : (14 <= 1 + length (map up_direction (d1 :: ds)))%nat)
    by (rewrite length_map; simpl length in *; lia).
  split.
  - intros Hno.
    apply (rsi_without_losses _ 14 _ _ 1%nat _ _ r) in H; auto.
    + now rewrite !length_map.
    + apply down_direction_zero, Hno. now left.
    + apply Forall_forall. intros y Hy.
      apply in_map_iff in Hy as (d & <- & Hd).
      apply down_direction_zero, Hno. now right.
  - intros Hno [d [Hd Hloss]].
    apply (rsi_without_gains _ 14 alpha14_open _ _ 1%nat _ _ r) in H; auto.
    + now rewrite !length_map.
    + apply up_direction_zero, Hno. now left.
    + apply Forall_forall. intros y Hy.
      apply in_map_iff in Hy as (d' & <- & Hd').
      apply up_direction_zero, Hno. now right.
    + apply down_direction_nonneg.
    + apply Forall_forall. intros y Hy.
      apply in_map_iff in Hy as (d' & <- & Hd').
      apply down_direction_nonneg.
    + destruct Hd as [<- | Hd].
      * left. now apply down_direction_pos.
      * right. apply Exists_exists. exists (down_direction d).
        split; [now apply in_map | now apply down_direction_pos].
Qed.

(** X7. When the history has 14 closes or more and no close is below the
    one before it, the [rsi] of the snapshot is 100: a flat series reads
    as 100 too. *)
Theorem rsi_is_100_without_losses (u : Upstream) (ticker : string)
    (s : Snapshot) (tr : list event) (history : DataFrame) :
  get_stock_data_try u ticker = (Ret s, tr) ->
  ticker_history u ticker "30d" = Ret history ->
  (14 <= length (closes history))%nat ->
  (forall d : num, In d (diff (closes history)) -> Num.ltb d (Fin 0) = false) ->
  num_eq (rsi s) (Fin 100).
Proof.
  intros H Hh Hlen Hno.
  apply get_stock_data_try_run in H
    as (info' & history' & p & sma & rsi14 & yhat & chg
        & _ & Hh' & _ & _ & _ & _ & Hr & _ & _ & -> & _).
  rewrite Hh in Hh'. inversion Hh'; subst history'.
  cbn [rsi].
  destruct (rsi_extremes _ _ Hr Hlen) as [H100 _].
  rewrite (H100 Hno).
  apply (round2_num_eq 100 100). reflexivity.
Qed.

Lemma rsi_is_100_without_losses_witness :
  exists (s : Snapshot) (tr : list event),
    get_stock_data_try (market (Fin 110) rising14) "AAPL" = (Ret s, tr)
    /\ num_eq (rsi s) (Fin 100).
Proof.
  destruct (get_stock_data_try (market (Fin 110) rising14) "AAPL")
    as [[s | e] tr] eqn:Hrun; [| vm_compute in Hrun; discriminate].
  exists s, tr. split; [reflexivity |].
  apply (rsi_is_100_without_losses
           (market (Fin 110) rising14) "AAPL"%string s tr (frame rising14)
           Hrun eq_refl).
  - vm_compute. lia.
  - intros d Hd. vm_compute in Hd.
    repeat (destruct Hd as [<- | Hd]; [reflexivity |]). contradiction.
Defined.

(** X8. When the history has 14 closes or more, no close is above the one
    before it and at least one is below, the [rsi] of the snapshot
    is 0. *)
Theorem rsi_is_0_without_gains (u : Upstream) (ticker : string)
    (s : Snapshot) (tr : list event) (history : DataFrame) :
  get_stock_data_try u ticker = (Ret s, tr) ->
  ticker_history u ticker "30d" = Ret history ->
  (14 <= length (closes history))%nat ->
  (forall d : num, In d (diff (closes history)) -> Num.gtb d (Fin 0) = false) ->
  (exists d : num, In d (diff (closes history)) /\ Num.ltb d (Fin 0) = true) ->
  num_eq (rsi s) (Fin 0).
Proof.
  intros H Hh Hlen Hno Hloss.
  apply get_stock_data_try_run in H
    as (info' & history' & p & sma & rsi14 & yhat & chg
        & _ & Hh' & _ & _ & _ & _ & Hr & _ & _ & -> & _).
  rewrite Hh in Hh'. inversion Hh'; subst history'.
  cbn [rsi].
  destruct (rsi_extremes _ _ Hr Hlen) as [_ H0].
  destruct (H0 Hno Hloss) as (q & -> & Hq).
  apply (round2_num_eq q 0). exact Hq.
Qed.

Lemma rsi_is_0_without_gains_witness :
  exists (s : Snapshot) (tr : list event),
    get_stock_data_try (market (Fin 90) (rev rising14)) "AAPL" = (Ret s, tr)
    /\ num_eq (rsi s) (Fin 0).
Proof.
  destruct (get_stock_data_try (market (Fin 90) (rev rising14)) "AAPL")
    as [[s | e] tr] eqn:Hrun; [| vm_compute in Hrun; discriminate].
  exists s, tr. split; [reflexivity |].
  apply (rsi_is_0_without_gains
           (market (Fin 90) (rev rising14)) "AAPL"%string s tr
           (frame (rev rising14)) Hrun eq_refl).
  - vm_compute. lia.
  - intros d Hd. vm_compute in Hd.
    repeat (destruct Hd as [<- | Hd]; [reflexivity |]). contradiction.
  - exists (Fin (-1)). split; [vm_compute; auto 20 | reflexivity].
Defined.

End IndexExtremes.

(** * Further properties of the cache *)

Section Retention.

Import Samples Scenarios.

Lemma cache_wf_inv (c : Cache) :
  cache_wf c <-> cache_inv c (cached_symbols c).
Proof.
  unfold cache_wf, cache_inv. split.
  - intros [Hnd Hle]. split; [exact Hnd |]. split; [apply incl_refl |].
    split; [exact Hle |]. intros _. apply incl_refl.
  - intros (Hnd & _ & Hle & _). auto.
Qed.

Lemma get_stock_data_wf (u : Upstream) (c : Cache) (ticker : string) :
  cache_wf c -> cache_wf (snd (fst (get_stock_data u c ticker))).
Proof.
  intros H. apply cache_wf_inv in H.
  apply (get_stock_data_inv u c ticker) in H.
  destruct H as (Hnd & _ & Hle & _). split; auto.
Qed.

Lemma fetch_all_wf (calls : list (Upstream * string)) :
  forall c : Cache, cache_wf c -> cache_wf (fetch_all c calls).
Proof.
  induction calls as [| [u t] rest IH]; intros c H; [exact H |].
  simpl. pose proof (get_stock_data_wf u c t H) as H1.
  destruct (get_stock_data u c t) as [[r c'] tr]. now apply IH.
Qed.

Lemma cache_wf_nil : cache_wf [].
Proof. split; [constructor | unfold maxsize; simpl; lia]. Qed.

Lemma cached_symbols_app (a b : Cache) :
  cached_symbols (a ++ b) = cached_symbols a ++ cached_symbols b.
Proof. apply map_app. Qed.

Lemma cache_find_mid (pre post : Cache) (t : string) (v : option Snapshot) :
  NoDup (cached_symbols (pre ++ (t, v) :: post)) ->
  cache_find (pre ++ (t, v) :: post) t = Some v.
Proof.
  induction pre as [| [k x] pre IH]; simpl; intros H.
  - now rewrite String.eqb_refl.
  - inversion H as [| ? ? Hnin Hnd]; subst.
    destruct (String.eqb_spec k t) as [-> | Hne]; [| now apply IH].
    exfalso. apply Hnin. rewrite cached_symbols_app. apply in_or_app.
    right. now left.
Qed.

Lemma cache_remove_app (a b : Cache) (k : string) :
  cache_remove (a ++ b) k = cache_remove a k ++ cache_remove b k.
Proof.
  induction a as [| [k0 v] a IH]; simpl; [reflexivity |].
  destruct (String.eqb k0 k); simpl; now rewrite IH.
Qed.

Lemma nodup_length_incl (l l' : list string) :
  incl l l' ->
  (length (nodup string_dec l) <= length (nodup string_dec l'))%nat.
Proof.
  intros H. apply NoDup_incl_length; [apply NoDup_nodup |].
  intros k Hk. apply nodup_In. apply H. now apply nodup_In in Hk.
Qed.

(** A call for another symbol leaves the entry where it can be found, as
    long as fewer than [maxsize] symbols have been asked for since. *)
Lemma get_stock_data_kept (u : Upstream) (c : Cache) (t t' : string)
    (v : option Snapshot) (seen : list string) :
  kept t v seen c ->
  (length (nodup string_dec (t' :: seen)) < maxsize)%nat ->
  kept t v (t' :: seen) (snd (fst (get_stock_data u c t'))).
Proof.
  intros [Hwf (pre & post & Hc & Hpre)] Hbound.
  split; [now apply get_stock_data_wf |].
  destruct Hwf as [Hnd Hle].
  pose proof Hnd as Hfind. rewrite Hc in Hfind.
  apply cache_find_mid in Hfind. rewrite <- Hc in Hfind.
  unfold get_stock_data.
  destruct (String.eqb_spec t t') as [<- | Hne].
  - rewrite Hfind. simpl. exists [], (cache_remove c t). split; auto.
    intros k [].
  - destruct (cache_find c t') as [v' |] eqn:Hf'.
    + simpl. exists ((t', v') :: cache_remove pre t'), (cache_remove post t').
      split.
      * rewrite Hc, cache_remove_app. simpl.
        destruct (String.eqb_spec t t'); [contradiction | reflexivity].
      * intros k [<- | Hk]; [now left | right].
        apply Hpre. now apply cache_remove_in in Hk.
    + apply cache_find_none in Hf'.
      destruct (get_stock_data_body u t') as [r tr]. simpl.
      unfold cache_make_room.
      destruct (length c <? maxsize)%nat eqn:Hroom.
      * exists ((t', r) :: pre), post. split; [now rewrite Hc |].
        intros k [<- | Hk]; [now left | right; auto].
      * apply Nat.ltb_ge in Hroom.
        destruct post as [| e post].
        { exfalso.
          assert (Hlen : length pre = 127%nat).
          { rewrite Hc, length_app in Hle, Hroom. simpl in Hle, Hroom.
            unfold maxsize in *. lia. }
          assert (Hnd' : NoDup (t' :: cached_symbols pre)).
          { constructor.
            - intros Hin. apply Hf'. rewrite Hc, cached_symbols_app.
              apply in_or_app. now left.
            - rewrite Hc, cached_symbols_app in Hnd.
              now apply NoDup_app_remove_r in Hnd. }
          assert (Hincl : incl (t' :: cached_symbols pre)
                               (nodup string_dec (t' :: seen))).
          { intros k Hk. apply nodup_In.
            destruct Hk as [<- | Hk]; [now left | right; auto]. }
          pose proof (NoDup_incl_length Hnd' Hincl) as Hl.
          change (length (t' :: cached_symbols pre))
            with (S (length (cached_symbols pre))) in Hl.
          unfold cached_symbols in Hl at 1.
          rewrite length_map, Hlen in Hl. unfold maxsize in Hbound. lia. }
        exists ((t', r) :: pre), (removelast (e :: post)). split.
        { rewrite Hc.
          change ((t, v) :: e :: post) with ([(t, v)] ++ e :: post).
          rewrite app_assoc, removelast_app by discriminate.
          now rewrite <- app_assoc. }
        intros k [<- | Hk]; [now left | right; auto].
Qed.

Lemma fetch_all_kept (t : string) (v : option Snapshot)
    (calls : list (Upstream * string)) :
  forall (c : Cache) (seen : list string),
    kept t v seen c ->
    (length (nodup string_dec (rev (map snd calls) ++ seen)) < maxsize)%nat ->
    kept t v (rev (map snd calls) ++ seen) (fetch_all c calls).
Proof.
  induction calls as [| [u t'] rest IH]; intros c seen Hk Hb; [exact Hk |].
  simpl in *. rewrite <- app_assoc in *. simpl in *.
  assert (Hb' : (length (nodup string_dec (t' :: seen)) < maxsize)%nat).
  { eapply Nat.le_lt_trans; [| exact Hb]. apply nodup_length_incl.
    intros k Hin. apply in_or_app. now right. }
  pose proof (get_stock_data_kept u c t t' v seen Hk Hb') as Hstep.
  destruct (get_stock_data u c t') as [[r c'] tr]. simpl in Hstep.
  now apply IH.
Qed.

Lemma kept_find (t : string) (v : option Snapshot) (seen : list string)
    (c : Cache) :
  kept t v seen c -> cache_find c t = Some v.
Proof.
  intros [[Hnd _] (pre & post & -> & _)]. now apply cache_find_mid.
Qed.

(** After the call the entry is at the head of a cache in good order. *)
Lemma get_stock_data_head (u : Upstream) (c : Cache) (t : string) :
  cache_wf c ->
  kept t (fst (fst (get_stock_data u c t))) []
       (snd (fst (get_stock_data u c t))).
Proof.
  intros Hwf. split; [now apply get_stock_data_wf |].
  unfold get_stock_data.
  destruct (cache_find c t) as [v |].
  - simpl. exists [], (cache_remove c t). split; auto. intros k [].
  - destruct (get_stock_data_body u t) as [r tr]. simpl.
    exists [], (cache_make_room c). split; auto. intros k [].
Qed.

(** The entry of a symbol outlives any run of calls that ask for fewer
    than [maxsize] symbols. *)
Lemma entry_outlives (u : Upstream) (c : Cache) (t : string)
    (calls : list (Upstream * string)) :
  cache_wf c ->
  (length (distinct_symbols calls) < maxsize)%nat ->
  cache_find (fetch_all (snd (fst (get_stock_data u c t))) calls) t
  = Some (fst (fst (get_stock_data u c t))).
Proof.
  intros Hwf Hb.
  apply (kept_find _ _ (rev (map snd calls) ++ [])).
  apply fetch_all_kept; [now apply get_stock_data_head |].
  eapply Nat.le_lt_trans; [| exact Hb]. unfold distinct_symbols.
  apply nodup_length_incl. intros k Hk. rewrite app_nil_r in Hk.
  now apply in_rev.
Qed.

(** X9. What a call returned for a symbol stays in the cache through any
    later calls that ask for fewer than 128 distinct symbols: the next
    call for the symbol returns that very value, failures included,
    without a delay or a request, whatever the market has become. *)
Theorem recent_entry_survives (calls0 calls : list (Upstream * string))
    (u u' : Upstream) (ticker : string) :
  (length (distinct_symbols calls) < maxsize)%nat ->
  let '(r, c1, _) := get_stock_data u (fetch_all [] calls0) ticker in
  let c2 := fetch_all c1 calls in
  cache_find c2 ticker = Some r
  /\ get_stock_data u' c2 ticker = (r, (ticker, r) :: cache_remove c2 ticker, []).
Proof.
  intros Hb.
  pose proof (entry_outlives u (fetch_all [] calls0) ticker calls
                (fetch_all_wf calls0 [] cache_wf_nil) Hb) as H.
  destruct (get_stock_data u (fetch_all [] calls0) ticker) as [[r c1] tr].
  simpl in H. cbv zeta. split; [exact H |].
  unfold get_stock_data. now rewrite H.
Qed.

Lemma recent_entry_survives_witness :
  cache_find
    (fetch_all (snd (fst (get_stock_data unreachable [] "AAPL")))
               [(delisted, "MSFT"%string); (delisted, "TSLA"%string)])
    "AAPL"
  = Some None.
Proof.
  assert (Hfew : (length (distinct_symbols
                            [(delisted, "MSFT"%string);
                             (delisted, "TSLA"%string)]) < maxsize)%nat)
    by (vm_compute; lia).
  pose proof (recent_entry_survives [] _ unreachable
                (market (Fin 95) closes20) "AAPL"%string Hfew) as W.
  vm_compute in W. destruct W as [W _].
  vm_compute. exact W.
Defined.

End Retention.

(** * Properties of the handlers *)

Section Dictionary.

Context {V : Type}.

Lemma dict_get_set_same (d : list (string * V)) (k : string) (v : V) :
  dict_get (dict_set d k v) k = Some v.
Proof.
  induction d as [| [k0 v0] d IH]; simpl.
  - now rewrite String.eqb_refl.
  - destruct (String.eqb_spec k0 k) as [-> | Hne]; simpl.
    + now rewrite String.eqb_refl.
    + destruct (String.eqb_spec k0 k); [contradiction | exact IH].
Qed.


Lemma dict_set_keys (d : list (string * V)) (k : string) (v : V) :
  (In k (map fst d) -> map fst (dict_set d k v) = map fst d)
  /\ (~ In k (map fst d) -> map fst (dict_set d k v) = map fst d ++ [k]).
Proof.
  induction d as [| [k0 v0] d [IH1 IH2]]; simpl.
  - split; [tauto | reflexivity].
  - destruct (String.eqb_spec k0 k) as [-> | Hne]; simpl.
    + split; [reflexivity | tauto].
    + split.
      * intros [H | H]; [contradiction | now rewrite IH1].
      * intros H. rewrite IH2; tauto.
Qed.

Lemma dict_set_nodup (d : list (string * V)) (k : string) (v : V) :
  NoDup (map fst d) -> NoDup (map fst (dict_set d k v)).
Proof.
  intros H. destruct (in_dec string_dec k (map fst d)) as [Hin | Hnin].
  - now rewrite (proj1 (dict_set_keys d k v) Hin).
  - rewrite (proj2 (dict_set_keys d k v) Hnin).
    apply NoDup_app; [exact H | repeat constructor; auto |].
    intros x Hx [<- | []]. contradiction.
Qed.

Lemma dict_set_in (d : list (string * V)) (k k' : string) (v v' : V) :
  In (k', v') (dict_set d k v) -> (k' = k /\ v' = v) \/ In (k', v') d.
Proof.
  induction d as [| [k0 v0] d IH]; simpl.
  - intros [H | []]. inversion H. auto.
  - destruct (String.eqb_spec k0 k) as [-> | Hne]; simpl.
    + intros [H | H]; [inversion H; auto | auto].
    + intros [H | H]; [auto | destruct (IH H); auto].
Qed.

Lemma dict_pop_in (d : list (string * V)) (k k' : string) (v' : V) :
  In (k', v') (dict_pop d k) -> In (k', v') d.
Proof.
  induction d as [| [k0 v0] d IH]; simpl; [tauto |].
  destruct (String.eqb k0 k); simpl; [auto |].
  intros [H | H]; auto.
Qed.

Lemma dict_pop_key_in (d : list (string * V)) (k k' : string) :
  In k' (map fst (dict_pop d k)) -> In k' (map fst d).
Proof.
  intros H. apply in_map_iff in H as ([k0 v0] & <- & H).
  apply dict_pop_in in H. now apply (in_map fst) in H.
Qed.

Lemma dict_pop_nodup (d : list (string * V)) (k : string) :
  NoDup (map fst d) -> NoDup (map fst (dict_pop d k)).
Proof.
  induction d as [| [k0 v0] d IH]; simpl; intros H; [constructor |].
  inversion H as [| ? ? Hnin Hnd]; subst.
  destruct (String.eqb k0 k); simpl; [exact Hnd |].
  constructor; auto. intros Hin. apply Hnin. now apply dict_pop_key_in in Hin.
Qed.

Lemma dict_get_none (d : list (string * V)) (k : string) :
  dict_get d k = None <-> ~ In k (map fst d).
Proof.
  induction d as [| [k0 v0] d IH]; simpl; [tauto |].
  destruct (String.eqb_spec k0 k) as [-> | Hne].
  - split; [discriminate | tauto].
  - rewrite IH. tauto.
Qed.

Lemma dict_get_in (d : list (string * V)) (k : string) (v : V) :
  dict_get d k = Some v -> In (k, v) d.
Proof.
  induction d as [| [k0 v0] d IH]; simpl; [discriminate |].
  destruct (String.eqb_spec k0 k) as [-> | Hne].
  - intros H. inversion H. now left.
  - auto.
Qed.

Lemma dict_pop_get (d : list (string * V)) (k : string) :
  NoDup (map fst d) ->
  dict_get (dict_pop d k) k = None
  /\ forall k' : string, k' <> k -> dict_get (dict_pop d k) k' = dict_get d k'.
Proof.
  induction d as [| [k0 v0] d IH]; simpl; intros H; [auto |].
  inversion H as [| ? ? Hnin Hnd]; subst.
  destruct (String.eqb_spec k0 k) as [-> | Hne]; simpl.
  - split; [now apply dict_get_none |].
    intros k' Hk'. destruct (String.eqb_spec k k'); [congruence | reflexivity].
  - destruct (IH Hnd) as [IH1 IH2]. split.
    + destruct (String.eqb_spec k0 k); [contradiction | exact IH1].
    + intros k' Hk'. now rewrite IH2.
Qed.

Lemma dict_pop_absent (d : list (string * V)) (k : string) :
  ~ In k (map fst d) -> dict_pop d k = d.
Proof.
  induction d as [| [k0 v0] d IH]; simpl; intros H; [reflexivity |].
  destruct (String.eqb_spec k0 k) as [-> | Hne]; [tauto |].
  f_equal. apply IH. tauto.
Qed.

Lemma dict_pop_keys (d : list (string * V)) (k : string) :
  exists before after : list string,
    map fst (dict_pop d k) = before ++ after
    /\ (map fst d = before ++ after \/ map fst d = before ++ k :: after).
Proof.
  induction d as [| [k0 v0] d (b & a & IH1 & IH2)]; simpl.
  - exists [], []. auto.
  - destruct (String.eqb_spec k0 k) as [-> | Hne]; simpl.
    + exists [], (map fst d). auto.
    + exists (k0 :: b), a. split; [simpl; now rewrite IH1 |].
      destruct IH2 as [-> | ->]; auto.
Qed.

End Dictionary.

Section Handlers.

Import Samples Scenarios.

Lemma home_post_inv (u : Upstream) (st st1 : AppState) (f : string)
    (err : option string) (tr : list event) :
  home_post u st f = (st1, err, tr) ->
  let t := normalize f in
  cache st1 = snd (fst (get_stock_data u (cache st) t))
  /\ tr = snd (get_stock_data u (cache st) t)
  /\ match fst (fst (get_stock_data u (cache st) t)) with
     | Some snapshot =>
         portfolio st1 = dict_set (portfolio st) t snapshot /\ err = None
     | None =>
         portfolio st1 = portfolio st
         /\ err = Some ("Invalid ticker: " ++ t)%string
     end.
Proof.
  unfold home_post. cbv zeta.
  destruct (get_stock_data u (cache st) (normalize f)) as [[[snap |] c] tr0];
    intros H; inversion H; subst; simpl; auto.
Qed.

Lemma home_inv (u : Upstream) (st st' : AppState) (req : Request)
    (page : Page) (tr : list event) :
  home u st req = (st', page, tr) ->
  exists (st1 : AppState) (err : option string) (tr1 tr2 : list event),
    match req with
    | POST f => home_post u st f
    | GET => (st, None, [])
    end = (st1, err, tr1)
    /\ portfolio st' = portfolio st1
    /\ cache st' = snd (fst (collect_news u (cache st1) (held_symbols st1)))
    /\ page_error page = err
    /\ page_portfolio page = portfolio st1
    /\ page_news page = fst (fst (collect_news u (cache st1) (held_symbols st1)))
    /\ tr2 = snd (collect_news u (cache st1) (held_symbols st1))
    /\ tr = tr1 ++ tr2.
Proof.
  unfold home, held_symbols.
  destruct (match req with
            | POST f => home_post u st f
            | GET => (st, None, [])
            end) as [[st1 err] tr1].
  destruct (collect_news u (cache st1) (map fst (portfolio st1)))
    as [[news c] tr2] eqn:E.
  intros H. inversion H; subst. exists st1, err, tr1, tr2.
  rewrite E.
  cbn [portfolio cache page_error page_portfolio page_news fst snd].
  repeat split; reflexivity.
Qed.

(** The cache after the news were collected is the cache after as many
    calls, one for each symbol held. *)
Lemma collect_news_cache (u : Upstream) (keys : list string) :
  forall c : Cache,
    snd (fst (collect_news u c keys))
    = fetch_all c (map (fun k => (u, k)) keys).
Proof.
  induction keys as [| k keys IH]; intros c; [reflexivity |].
  simpl. specialize (IH (snd (fst (get_stock_data u c k)))).
  destruct (get_stock_data u c k) as [[[snap |] c1] tr1]; simpl in *.
  - destruct (collect_news u c1 keys) as [[news c2] tr3]. simpl in *.
    exact IH.
  - destruct (collect_news u c1 keys) as [[news c2] tr3]. simpl in *.
    exact IH.
Qed.








End Handlers.

Section Application.

Import Samples Scenarios.

Lemma cache_find_in (c : Cache) (k : string) (v : option Snapshot) :
  cache_find c k = Some v -> In (k, v) c.
Proof.
  induction c as [| [k0 v0] c IH]; simpl; [discriminate |].
  destruct (String.eqb_spec k0 k) as [-> | Hne].
  - intros H. inversion H. now left.
  - auto.
Qed.

Lemma cache_remove_subset (c : Cache) (k : string)
    (e : string * option Snapshot) :
  In e (cache_remove c k) -> In e c.
Proof.
  induction c as [| [k0 v0] c IH]; simpl; [tauto |].
  destruct (String.eqb k0 k); simpl; [auto |].
  intros [H | H]; auto.
Qed.

(** Whatever a call returns or leaves in the cache came out of a
    successful run for its symbol. *)
Lemma get_stock_data_produced (u : Upstream) (c : Cache) (t : string) :
  (forall k s, In (k, Some s) c -> produced k s) ->
  (forall s, fst (fst (get_stock_data u c t)) = Some s -> produced t s)
  /\ (forall k s, In (k, Some s) (snd (fst (get_stock_data u c t))) ->
        produced k s).
Proof.
  intros Hc. unfold get_stock_data.
  destruct (cache_find c t) as [stored |] eqn:Hf.
  - apply cache_find_in in Hf. simpl. split.
    + intros s ->. auto.
    + intros k s [H | H].
      * inversion H; subst. auto.
      * apply Hc. now apply cache_remove_subset in H.
  - pose proof (get_stock_data_body_some u t) as Hb.
    destruct (get_stock_data_body u t) as [r tr]. simpl in *.
    assert (Hr : forall s, r = Some s -> produced t s).
    { intros s ->. destruct (Hb s eq_refl) as [tr' Htr].
      now exists u, tr'. }
    split; [exact Hr |].
    intros k s [H | H].
    + inversion H; subst. auto.
    + apply Hc. unfold cache_make_room in H.
      destruct (length c <? maxsize)%nat; [exact H |].
      now apply removelast_in in H.
Qed.

Lemma fetch_all_produced (calls : list (Upstream * string)) :
  forall c : Cache,
    (forall k s, In (k, Some s) c -> produced k s) ->
    forall k s, In (k, Some s) (fetch_all c calls) -> produced k s.
Proof.
  induction calls as [| [u t] rest IH]; intros c Hc; [exact Hc |].
  simpl. pose proof (proj2 (get_stock_data_produced u c t Hc)) as H1.
  destruct (get_stock_data u c t) as [[r c'] tr]. now apply IH.
Qed.

Lemma app_inv_initial : app_inv initial.
Proof.
  unfold app_inv, initial, held_symbols. simpl.
  split; [constructor |]. split; [apply cache_wf_nil |].
  split; intros k s [].
Qed.

Lemma home_app_inv (u : Upstream) (st : AppState) (req : Request) :
  app_inv st -> app_inv (fst (fst (home u st req))).
Proof.
  intros (Hnd & Hwf & Hp & Hc).
  destruct (home u st req) as [[st' page] tr] eqn:Hhome. simpl.
  apply home_inv in Hhome
    as (st1 & err & tr1 & tr2 & H1 & Hpf & Hca & _).
  assert (Hst1 : app_inv st1).
  { destruct req as [| f].
    - inversion H1; subst. exact (conj Hnd (conj Hwf (conj Hp Hc))).
    - apply home_post_inv in H1 as (Hc1 & _ & Hdata). cbv zeta in Hdata.
      destruct (get_stock_data_produced u (cache st) (normalize f) Hc)
        as [Hd Hc'].
      unfold app_inv, held_symbols. rewrite Hc1.
      destruct (fst (fst (get_stock_data u (cache st) (normalize f))))
        as [snap |].
      + destruct Hdata as [-> _]. split; [now apply dict_set_nodup |].
        split; [now apply get_stock_data_wf |]. split; [| exact Hc'].
        intros k s Hin. apply dict_set_in in Hin as [[-> ->] | Hin].
        * destruct (normalize_fixed f). auto.
        * now apply Hp.
      + destruct Hdata as [-> _]. split; [exact Hnd |].
        split; [now apply get_stock_data_wf |]. split; auto. }
  destruct Hst1 as (Hnd1 & Hwf1 & Hp1 & Hc1).
  unfold app_inv, held_symbols. rewrite Hpf, Hca, collect_news_cache.
  split; [exact Hnd1 |]. split; [now apply fetch_all_wf |].
  split; [exact Hp1 |]. now apply fetch_all_produced.
Qed.

Lemma serve_app_inv (st : AppState) (a : Action) :
  app_inv st -> app_inv (serve st a).
Proof.
  destruct a as [u req | ticker]; [apply home_app_inv |].
  intros (Hnd & Hwf & Hp & Hc). unfold app_inv, held_symbols. simpl.
  split; [now apply dict_pop_nodup |]. split; [exact Hwf |].
  split; [| exact Hc].
  intros k s Hin. apply Hp. now apply dict_pop_in in Hin.
Qed.

Lemma run_app_inv (actions : list Action) :
  forall st : AppState, app_inv st -> app_inv (run_app st actions).
Proof.
  induction actions as [| a rest IH]; intros st H; [exact H |].
  simpl. apply IH. now apply serve_app_inv.
Qed.

Lemma reachable_inv (actions : list Action) :
  app_inv (run_app initial actions).
Proof. apply run_app_inv, app_inv_initial. Qed.

Lemma change_percent_rounded (p : num) (close : list num) (chg : num) :
  fst (change_percent p close) = Ret chg -> rounded2 chg.
Proof.
  unfold change_percent. destruct (1 <? length close)%nat.
  - destruct (iloc_last2 close); simpl; intros H; inversion H.
    apply round2_rounded.
  - simpl. intros H. inversion H. exists 0. reflexivity.
Qed.

(** X10. Whatever requests the application has served, it holds no symbol
    twice and caches at most 128 entries, every symbol held is in upper
    case without white space around it, and the snapshot held for it is
    one that a run for that very symbol returned: its eco score is the
    one of the symbol, its scalar entries are rounded, its chart has at
    most 30 entries. *)
Theorem held_snapshots_are_genuine (actions : list Action) :
  let st := run_app initial actions in
  NoDup (held_symbols st)
  /\ (length (cache st) <= maxsize)%nat
  /\ forall (k : string) (s : Snapshot),
       dict_get (portfolio st) k = Some s ->
       upper k = k /\ strip k = k /\ produced k s
       /\ eco_score s = get_or (dict_get eco_scores k)
                               {| score := 50; carbon := 5000 |}
       /\ rounded2 (price s) /\ rounded2 (sma_20 s) /\ rounded2 (rsi s)
       /\ rounded2 (change s) /\ rounded2 (prediction s)
       /\ (length (chart_data s) <= 30)%nat.
Proof.
  cbv zeta. destruct (reachable_inv actions) as (Hnd & [_ Hle] & Hp & _).
  split; [exact Hnd |]. split; [exact Hle |].
  intros k s Hget. apply dict_get_in in Hget.
  destruct (Hp k s Hget) as (Hu & Hs & Hprod).
  split; [exact Hu |]. split; [exact Hs |]. split; [exact Hprod |].
  destruct Hprod as (u & tr & Hrun).
  apply get_stock_data_try_run in Hrun
    as (info & history & p & sma & rsi14 & yhat & chg
        & _ & _ & _ & _ & _ & _ & _ & _ & Hg & -> & _).
  cbn [eco_score price sma_20 rsi change prediction chart_data].
  repeat split; try apply round2_rounded.
  - now apply change_percent_rounded in Hg.
  - rewrite tail_length. lia.
Qed.

Lemma held_snapshots_are_genuine_witness :
  exists s : Snapshot,
    dict_get (portfolio (run_app initial
                           [Home (market (Fin 95) closes20) (POST " aapl");
                            Home unreachable (POST "msft");
                            Remove "TSLA"])) "AAPL" = Some s
    /\ eco_score s = {| score := 75; carbon := 4500 |}.
Proof.
  destruct (dict_get (portfolio (run_app initial
                           [Home (market (Fin 95) closes20) (POST " aapl");
                            Home unreachable (POST "msft");
                            Remove "TSLA"])) "AAPL") as [s |] eqn:Hget;
    [| vm_compute in Hget; discriminate].
  exists s. split; [reflexivity |].
  exact (proj1 (proj2 (proj2 (proj2
           (proj2 (proj2 (held_snapshots_are_genuine _)) "AAPL"%string s Hget))))).
Defined.

End Application.

Section Requests.

Import Samples Scenarios.







(** X14. In any state the application can reach, [remove_stock] takes
    the named symbol out of the portfolio and nothing else: every other
    entry and the cache stay as they were.  The name is taken as it is
    written, so a symbol that is not held, one with a lower-case letter
    or with white space around it among them, removes nothing. *)
Theorem remove_stock_removes_only_that (actions : list Action)
    (ticker : string) :
  let st := run_app initial actions in
  let st' := remove_stock st ticker in
  dict_get (portfolio st') ticker = None
  /\ (forall k : string,
        k <> ticker -> dict_get (portfolio st') k = dict_get (portfolio st) k)
  /\ cache st' = cache st
  /\ (dict_get (portfolio st) ticker = None -> st' = st)
  /\ (upper ticker <> ticker \/ strip ticker <> ticker -> st' = st).
Proof.
  cbv zeta. destruct (reachable_inv actions) as (Hnd & _ & Hp & _).
  set (st := run_app initial actions) in *.
  destruct (dict_pop_get (portfolio st) ticker Hnd) as [H1 H2].
  assert (Habsent : dict_get (portfolio st) ticker = None ->
                    remove_stock st ticker = st).
  { intros Hnone. apply dict_get_none in Hnone.
    unfold remove_stock. rewrite (dict_pop_absent _ _ Hnone).
    now destruct st. }
  repeat split; auto.
  intros Hraw. apply Habsent.
  destruct (dict_get (portfolio st) ticker) as [s |] eqn:Hget; [| reflexivity].
  apply dict_get_in in Hget. destruct (Hp _ _ Hget) as (Hu & Hs & _).
  tauto.
Qed.

Lemma remove_stock_removes_only_that_witness :
  remove_stock
    (run_app initial [Home (market (Fin 95) closes20) (POST "AAPL")]) "aapl"
  = run_app initial [Home (market (Fin 95) closes20) (POST "AAPL")].
Proof.
  apply (proj2 (proj2 (proj2 (proj2
           (remove_stock_removes_only_that
              [Home (market (Fin 95) closes20) (POST "AAPL")]
              "aapl"%string))))).
  left. vm_compute. discriminate.
Defined.

Lemma nodup_length_le (l : list string) :
  (length (nodup string_dec l) <= length l)%nat.
Proof.
  apply NoDup_incl_length; [apply NoDup_nodup |].
  intros k Hk. now apply nodup_In in Hk.
Qed.

(** What a [POST] fetched is still cached for its symbol when the request
    is over, if fewer than [maxsize] symbols are held. *)
Lemma posted_symbol_stays_cached (u : Upstream) (st st' : AppState)
    (f : string) (page : Page) (tr : list event) :
  cache_wf (cache st) ->
  home u st (POST f) = (st', page, tr) ->
  (length (portfolio st') < maxsize)%nat ->
  cache_find (cache st') (normalize f)
  = Some (fst (fst (get_stock_data u (cache st) (normalize f)))).
Proof.
  intros Hwf Hhome Hfew.
  apply home_inv in Hhome
    as (st1 & err & tr1 & tr2 & H1 & Hpf & Hca & _).
  apply home_post_inv in H1 as (Hc1 & _ & _).
  rewrite Hca, collect_news_cache, Hc1.
  apply entry_outlives; [exact Hwf |].
  unfold distinct_symbols. rewrite map_map. simpl. rewrite map_id.
  eapply Nat.le_lt_trans; [apply nodup_length_le |].
  unfold held_symbols. rewrite length_map, <- Hpf. exact Hfew.
Qed.

(** X15. A symbol that was added, then removed, is added again from the
    cache: with fewer than 128 symbols held, the [POST] after the removal
    stores the snapshot it had before, shows no error and neither sleeps
    nor asks the market, whatever the market has become. *)
Theorem removed_symbol_is_readded_from_cache (actions : list Action)
    (u1 u2 : Upstream) (form_ticker : string) (st1 : AppState) (page1 : Page)
    (tr1 : list event) :
  let ticker := normalize form_ticker in
  home u1 (run_app initial actions) (POST form_ticker) = (st1, page1, tr1) ->
  page_error page1 = None ->
  (length (portfolio st1) < maxsize)%nat ->
  exists snapshot : Snapshot,
    dict_get (portfolio st1) ticker = Some snapshot
    /\ dict_get (portfolio (remove_stock st1 ticker)) ticker = None
    /\ exists st3 : AppState,
         home_post u2 (remove_stock st1 ticker) form_ticker = (st3, None, [])
         /\ dict_get (portfolio st3) ticker = Some snapshot.
Proof.
  cbv zeta. intros Hhome Herr Hfew.
  destruct (reachable_inv actions) as (_ & Hwf & _ & _).
  pose proof (posted_symbol_stays_cached _ _ _ _ _ _ Hwf Hhome Hfew) as Hc.
  pose proof (home_app_inv u1 (run_app initial actions) (POST form_ticker)
                (reachable_inv actions)) as Hinv1.
  rewrite Hhome in Hinv1. simpl in Hinv1. destruct Hinv1 as (Hnd1 & _).
  apply home_inv in Hhome
    as (st0 & err & tr0 & tr2 & H1 & Hpf & _ & He & _).
  apply home_post_inv in H1 as (_ & _ & Hm). cbv zeta in Hm.
  destruct (fst (fst (get_stock_data u1 (cache (run_app initial actions))
                        (normalize form_ticker)))) as [snap |].
  - destruct Hm as [Hp0 _]. exists snap.
    split; [rewrite Hpf, Hp0; apply dict_get_set_same |].
    split; [apply (dict_pop_get (portfolio st1) _ Hnd1) |].
    unfold home_post, get_stock_data. cbn [cache remove_stock].
    rewrite Hc. eexists. split; [reflexivity |].
    cbn [portfolio]. apply dict_get_set_same.
  - destruct Hm as [_ ->]. rewrite Herr in He. discriminate.
Qed.

Lemma removed_symbol_is_readded_from_cache_witness :
  exists (st1 : AppState) (page1 : Page) (tr1 : list event) (s : Snapshot)
         (st3 : AppState),
    home (market (Fin 95) closes20) (run_app initial []) (POST "aapl")
    = (st1, page1, tr1)
    /\ home_post unreachable (remove_stock st1 "AAPL") "aapl" = (st3, None, [])
    /\ dict_get (portfolio st3) "AAPL" = Some s.
Proof.
  destruct (home (market (Fin 95) closes20) (run_app initial []) (POST "aapl"))
    as [[st1 page1] tr1] eqn:Hhome.
  assert (Herr : page_error page1 = None).
  { vm_compute in Hhome. inversion Hhome. reflexivity. }
  assert (Hfew : (length (portfolio st1) < maxsize)%nat).
  { vm_compute in Hhome. inversion Hhome. vm_compute. lia. }
  destruct (removed_symbol_is_readded_from_cache [] _ unreachable "aapl"
              st1 page1 tr1 Hhome Herr Hfew)
    as (s & _ & _ & st3 & H3 & H4).
  exists st1, page1, tr1, s, st3. split; [reflexivity |].
  split; [exact H3 | exact H4].
Defined.

(** X16. A symbol whose fetch failed stays rejected: with fewer than 128
    symbols held, the next [POST] of it reports "Invalid ticker" again,
    leaves the portfolio alone and neither sleeps nor asks the market,
    even when the market would now answer. *)
Theorem failed_symbol_stays_rejected (actions : list Action)
    (u1 u2 : Upstream) (form_ticker : string) (st1 : AppState) (page1 : Page)
    (tr1 : list event) :
  let ticker := normalize form_ticker in
  home u1 (run_app initial actions) (POST form_ticker) = (st1, page1, tr1) ->
  page_error page1 <> None ->
  (length (portfolio st1) < maxsize)%nat ->
  exists st2 : AppState,
    home_post u2 st1 form_ticker
    = (st2, Some ("Invalid ticker: " ++ ticker)%string, [])
    /\ portfolio st2 = portfolio st1.
Proof.
  cbv zeta. intros Hhome Herr Hfew.
  destruct (reachable_inv actions) as (_ & Hwf & _ & _).
  pose proof (posted_symbol_stays_cached _ _ _ _ _ _ Hwf Hhome Hfew) as Hc.
  apply home_inv in Hhome
    as (st0 & err & tr0 & tr2 & H1 & _ & _ & He & _).
  apply home_post_inv in H1 as (_ & _ & Hm). cbv zeta in Hm.
  destruct (fst (fst (get_stock_data u1 (cache (run_app initial actions))
                        (normalize form_ticker)))) as [snap |].
  - destruct Hm as [_ ->]. congruence.
  - unfold home_post, get_stock_data. rewrite Hc.
    eexists. split; reflexivity.
Qed.

Lemma failed_symbol_stays_rejected_witness :
  exists (st1 : AppState) (page1 : Page) (tr1 : list event) (st2 : AppState),
    home unreachable (run_app initial []) (POST "aapl") = (st1, page1, tr1)
    /\ home_post (market (Fin 95) closes20) st1 "aapl"
       = (st2, Some "Invalid ticker: AAPL"%string, []).
Proof.
  destruct (home unreachable (run_app initial []) (POST "aapl"))
    as [[st1 page1] tr1] eqn:Hhome.
  assert (Herr : page_error page1 <> None).
  { vm_compute in Hhome. inversion Hhome. discriminate. }
  assert (Hfew : (length (portfolio st1) < maxsize)%nat).
  { vm_compute in Hhome. inversion Hhome. vm_compute. lia. }
  destruct (failed_symbol_stays_rejected [] _ (market (Fin 95) closes20)
              "aapl" st1 page1 tr1 Hhome Herr Hfew) as (st2 & H2 & _).
  exists st1, page1, tr1, st2. split; [reflexivity | exact H2].
Defined.

Lemma remove_all_held (d : Portfolio) :
  forall c : Cache,
    portfolio (fold_left remove_stock (map fst d)
                         {| portfolio := d; cache := c |}) = [].
Proof.
  induction d as [| [k v] d IH]; intros c; [reflexivity |].
  simpl. unfold remove_stock at 2. simpl. rewrite String.eqb_refl. apply IH.
Qed.

(** X17. [export_portfolio] answers 400 "Portfolio is empty!" exactly when
    nothing is held: it sends the CSV attachment right after any [POST]
    whose fetch succeeded, and answers 400 again once every symbol held
    has been removed. *)
Theorem export_needs_a_holding (to_csv : Portfolio -> string) (now : string)
    (st : AppState) :
  (export_portfolio to_csv now st = Status400 "Portfolio is empty!"
   <-> held_symbols st = [])
  /\ (forall (u : Upstream) (f : string) (st' : AppState) (page : Page)
             (tr : list event),
        home u st (POST f) = (st', page, tr) -> page_error page = None ->
        export_portfolio to_csv now st'
        = Attachment (to_csv (portfolio st')) "text/csv"
                     ("kalilfin_portfolio_" ++ now ++ ".csv")%string)
  /\ export_portfolio to_csv now
       (fold_left remove_stock (held_symbols st) st)
     = Status400 "Portfolio is empty!".
Proof.
  split; [| split].
  - unfold export_portfolio, held_symbols.
    destruct (portfolio st); simpl; split; congruence.
  - intros u f st' page tr' Hhome Herr.
    apply home_inv in Hhome
      as (st1 & err & tr1 & tr2 & H1 & Hpf & _ & He & _).
    apply home_post_inv in H1 as (_ & _ & Hm). cbv zeta in Hm.
    destruct (fst (fst (get_stock_data u (cache st) (normalize f))))
      as [snap |].
    + destruct Hm as [Hp1 _]. unfold export_portfolio.
      rewrite Hpf, Hp1.
      pose proof (dict_get_set_same (portfolio st) (normalize f) snap) as Hg.
      destruct (dict_set (portfolio st) (normalize f) snap);
        [discriminate | reflexivity].
    + destruct Hm as [_ ->]. rewrite Herr in He. discriminate.
  - unfold export_portfolio, held_symbols. destruct st as [d c].
    cbn [portfolio]. now rewrite remove_all_held.
Qed.

Lemma export_needs_a_holding_witness :
  exists (st' : AppState) (page : Page) (tr : list event),
    home (market (Fin 95) closes20) initial (POST "aapl") = (st', page, tr)
    /\ export_portfolio (fun _ => "csv"%string) "20250101_120000" st'
       = Attachment "csv" "text/csv"
           "kalilfin_portfolio_20250101_120000.csv".
Proof.
  destruct (home (market (Fin 95) closes20) initial (POST "aapl"))
    as [[st' page] tr] eqn:Hhome.
  assert (Herr : page_error page = None).
  { vm_compute in Hhome. inversion Hhome. reflexivity. }
  exists st', page, tr. split; [reflexivity |].
  exact (proj1 (proj2 (export_needs_a_holding (fun _ => "csv"%string)
                         "20250101_120000" initial))
           _ _ _ _ _ Hhome Herr).
Defined.

End Requests.

(** * Further properties of the normalised symbol *)

Section Padding.










End Padding.
